(** * QualCoder, [qualcoder/select_items.py]: the item selection dialog

    A shallow embedding of [DialogSelectItems] and [ListModel].  Python
    objects that the dialog shares with its caller (the list of records and
    the record dictionaries) live in a heap of mutable objects addressed by
    references; the dialog methods are computations in a state-and-exception
    monad over that heap, the process-wide [sys.excepthook] and the trace of
    user-visible events.  The Qt widgets are records of what the code reads
    from them and writes to them; gettext's [_] and the enumeration order of
    a Python [set] are parameters.

    The file has the model first (values, heap, monad, widgets, the two
    classes), then the vocabulary of the statements and the example data,
    then the proofs: rules for sequencing and loops, invariants (the heap
    the caller sees, the exception hook, the events), what each method
    computes, and finally the properties C1 to C10 with an instance each. *)

From Stdlib Require Import ZArith Lia.
From stdpp Require Import base gmap strings list fin_maps pretty.

Local Open Scope string_scope.
Local Open Scope list_scope.
Local Open Scope Z_scope.

(** ** Python values and objects *)

(** A reference to a heap object (what [id(obj)] identifies). *)
Definition loc := positive.

(** Field values of a record: strings (and [None]). *)
Inductive PyVal :=
  | PNone
  | PStr (s : string).

#[global] Instance PyVal_eq_dec : EqDecision PyVal.
Proof. solve_decision. Defined.

(** Python truthiness, as tested by [not d['name']]. *)
Definition truthy (v : PyVal) : bool :=
  match v with
  | PNone => false
  | PStr s => negb (bool_decide (s = ""))
  end.

(** An element of a Python list: an immediate value or a reference to
    another object (a record dictionary, a list). *)
Inductive Item :=
  | IVal (v : PyVal)
  | IRef (l : loc).

#[global] Instance Item_eq_dec : EqDecision Item.
Proof. solve_decision. Defined.

Inductive Obj :=
  | ODict (fields : gmap string PyVal)
  | OList (items : list Item).

Inductive Exn :=
  | KeyError (key : string)
  | TypeError
  | IndexError.

(** ** The world: heap, exception hook, user-visible events *)

Inductive Event :=
  | EvMessage (title text icon : string)        (* helpers.Message(app_, title, text, icon) *)
  | EvPrint (text : string)                     (* print(text) *)
  | EvLoggerError (text : string)               (* logger.error(text) *)
  | EvCritical (title text : string).           (* QtWidgets.QMessageBox.critical(None, title, text) *)

(** A handler for uncaught exceptions receives the exception type's name,
    [str(value)] and the frames of [traceback.format_tb(tb_obj)]. *)
Definition Handler := string → string → list string → list Event.

Record World := mkWorld {
  heap : gmap loc Obj;
  excepthook : Handler;         (* sys.excepthook *)
  events : list Event;
}.

Definition set_heap (h : gmap loc Obj) (w : World) : World :=
  mkWorld h (excepthook w) (events w).

(** ** The monad of dialog code *)

Inductive Res (A : Type) :=
  | Ok (a : A)
  | Raise (e : Exn).
Arguments Ok {A} a.
Arguments Raise {A} e.

Definition M (A : Type) : Type := World → Res A * World.

Definition ret {A} (a : A) : M A := λ w, (Ok a, w).

Definition raise {A} (e : Exn) : M A := λ w, (Raise e, w).

Definition bind {A B} (m : M A) (f : A → M B) : M B :=
  λ w, match m w with
       | (Ok a, w') => f a w'
       | (Raise e, w') => (Raise e, w')
       end.

Notation "'let!' x ':=' m 'in' k" := (bind m (λ x, k))
  (at level 10, x pattern, m at level 100, k at level 200).

(** [try: m except KeyError: pass] *)
Definition try_except_KeyError (m : M unit) : M unit :=
  λ w, match m w with
       | (Raise (KeyError _), w') => (Ok tt, w')
       | r => r
       end.

(** [for x in xs: acc = body(acc, x)], over the elements the list holds when
    the loop starts (no loop body of this file writes to the list it
    iterates). *)
Fixpoint for_fold {A B} (xs : list A) (acc : B) (body : B → A → M B) : M B :=
  match xs with
  | [] => ret acc
  | x :: xs' => let! acc' := body acc x in for_fold xs' acc' body
  end.

Definition for_each {A} (xs : list A) (body : A → M unit) : M unit :=
  for_fold xs tt (λ _ x, body x).

(** *** Heap primitives *)

(** A new object, at a reference not in use. *)
Definition alloc (o : Obj) : M loc :=
  λ w, let l := fresh (dom (heap w)) in
       (Ok l, set_heap (<[l := o]> (heap w)) w).

(** The elements of a list object. *)
Definition read_list (l : loc) : M (list Item) :=
  λ w, match heap w !! l with
       | Some (OList xs) => (Ok xs, w)
       | _ => (Raise TypeError, w)
       end.

(** [len(l)] *)
Definition py_len (l : loc) : M Z :=
  let! xs := read_list l in ret (Z.of_nat (length xs)).

(** [copy.copy(l)]: a new object with the same content (shallow). *)
Definition copy_copy (l : loc) : M loc :=
  λ w, match heap w !! l with
       | Some o => alloc o w
       | None => (Raise TypeError, w)
       end.

(** [l.append(x)] *)
Definition list_append (l : loc) (x : Item) : M unit :=
  λ w, match heap w !! l with
       | Some (OList xs) => (Ok tt, set_heap (<[l := OList (xs ++ [x])]> (heap w)) w)
       | _ => (Raise TypeError, w)
       end.

(** The position at which [list.insert(i, x)] puts [x] in a list of
    length [n]. *)
Definition insert_pos (n i : Z) : Z :=
  if i <? 0 then Z.max 0 (i + n) else Z.min i n.

Definition py_insert (xs : list Item) (i : Z) (x : Item) : list Item :=
  let j := Z.to_nat (insert_pos (Z.of_nat (length xs)) i) in
  take j xs ++ x :: drop j xs.

(** [l.insert(i, x)] *)
Definition list_insert (l : loc) (i : Z) (x : Item) : M unit :=
  λ w, match heap w !! l with
       | Some (OList xs) => (Ok tt, set_heap (<[l := OList (py_insert xs i x)]> (heap w)) w)
       | _ => (Raise TypeError, w)
       end.

(** [xs[i]] on the elements of a list: negative indices count from the end,
    anything else out of range is an [IndexError]. *)
Definition py_index (xs : list Item) (i : Z) : Res Item :=
  let n := Z.of_nat (length xs) in
  let j := if i <? 0 then i + n else i in
  if (0 <=? j) && (j <? n) then
    match xs !! Z.to_nat j with
    | Some x => Ok x
    | None => Raise IndexError
    end
  else Raise IndexError.

(** [l[i]] on a list object. *)
Definition list_getitem (l : loc) (i : Z) : M Item :=
  λ w, match heap w !! l with
       | Some (OList xs) => (py_index xs i, w)
       | _ => (Raise TypeError, w)
       end.

(** [d[key]] where [d] is an element of the data list: a [KeyError] when the
    dictionary has no such key, a [TypeError] when [d] is no dictionary. *)
Definition getitem (d : Item) (key : string) : M PyVal :=
  λ w, match d with
       | IRef l =>
           match heap w !! l with
           | Some (ODict fields) =>
               match fields !! key with
               | Some v => (Ok v, w)
               | None => (Raise (KeyError key), w)
               end
           | _ => (Raise TypeError, w)
           end
       | IVal _ => (Raise TypeError, w)
       end.

(** *** Process-wide effects *)

Definition emit (e : Event) : M unit :=
  λ w, (Ok tt, mkWorld (heap w) (excepthook w) (events w ++ [e])).

(** [sys.excepthook = h] *)
Definition set_excepthook (h : Handler) : M unit :=
  λ w, (Ok tt, mkWorld (heap w) h (events w)).

(** What the interpreter does with an exception nobody caught: it calls the
    hook installed at that moment. *)
Definition uncaught (exception_type value : string) (tb : list string) : M unit :=
  λ w, (Ok tt, mkWorld (heap w) (excepthook w)
                 (events w ++ excepthook w exception_type value tb)).

(** ** Strings *)

Definition newline : string := String (Ascii.ascii_of_nat 10) "".
Definition dquote : string := String (Ascii.ascii_of_nat 34) "".

(** [sep.join(xs)] *)
Fixpoint join (sep : string) (xs : list string) : string :=
  match xs with
  | [] => ""
  | [x] => x
  | x :: xs' => x +:+ sep +:+ join sep xs'
  end.

(** ** The Qt widgets of [Ui_Dialog_selectitems] *)

(** [self.ui.comboBox]: whether it is enabled, the texts of its entries and
    the index of the current entry ([-1] when there is none). *)
Record ComboBox := mkComboBox {
  cb_enabled : bool;
  cb_items : list string;
  cb_index : Z;
}.

Inductive SelectionMode :=
  | SingleSelection
  | ExtendedSelection.

(** [ListModel] instances only hold the list they were built on. *)
Record ListModel := mkListModel {
  lm_list : loc;                (* self.list *)
}.

(** [self.ui.listView]: its selection mode, its model, the row of
    [currentIndex()] ([-1] when no row is current) and the rows of
    [selectedIndexes()], in the order the view reports them. *)
Record ListView := mkListView {
  lv_mode : SelectionMode;
  lv_model : option ListModel;
  lv_current : Z;
  lv_selected : list Z;
}.

(** Modelled from the spec: [Ui_Dialog_selectitems.setupUi] is generated
    from a designer file that is not part of the sources; the dialog opens
    with an empty, disabled group filter ("otherwise the filter control
    stays disabled") and a list view without a model. *)
Definition setupUi_comboBox : ComboBox := mkComboBox false [] (-1).
Definition setupUi_listView : ListView := mkListView SingleSelection None (-1) [].

(** [comboBox.currentText()]: the text of the current entry, empty when
    there is none. *)
Definition currentText (cb : ComboBox) : string :=
  if 0 <=? cb_index cb then default "" (cb_items cb !! Z.to_nat (cb_index cb)) else "".

(** [comboBox.setEnabled(b)] *)
Definition setEnabled (b : bool) (cb : ComboBox) : ComboBox :=
  mkComboBox b (cb_items cb) (cb_index cb).

(** The texts of a Python list handed to Qt as a list of strings; every
    element has to be a [str]. *)
Fixpoint as_texts (xs : list Item) : option (list string) :=
  match xs with
  | [] => Some []
  | IVal (PStr s) :: xs' => cons s <$> as_texts xs'
  | _ :: _ => None
  end.

(** [comboBox.addItems(xs)]: the entries are appended; a combo box that had
    no entry makes the first new one current. *)
Definition addItems (xs : list Item) (cb : ComboBox) : M ComboBox :=
  match as_texts xs with
  | Some texts =>
      let items := cb_items cb ++ texts in
      let index := if (cb_index cb <? 0) && negb (bool_decide (items = []))
                   then 0 else cb_index cb in
      ret (mkComboBox (cb_enabled cb) items index)
  | None => raise TypeError
  end.

(** [listView.setSelectionMode(mode)] *)
Definition setSelectionMode (mode : SelectionMode) (lv : ListView) : ListView :=
  mkListView mode (lv_model lv) (lv_current lv) (lv_selected lv).

(** [listView.setModel(model)]: the view gets a new selection model, so no
    row is current or selected any more. *)
Definition setModel (model : ListModel) (lv : ListView) : ListView :=
  mkListView (lv_mode lv) (Some model) (-1) [].

(** The user highlighting rows of the list view: afterwards
    [currentIndex().row()] is [current] and [selectedIndexes()] has the rows
    [selected]. *)
Definition highlight (current : Z) (selected : list Z) (lv : ListView) : ListView :=
  mkListView (lv_mode lv) (lv_model lv) current selected.

(** The roles [ListModel.data] is asked for. *)
Inductive ItemDataRole :=
  | DisplayRole
  | UserRole
  | OtherRole (n : nat).

(** What [ListModel.data] answers. *)
Inductive DataAnswer :=
  | QVariant (v : PyVal)        (* QtCore.QVariant(v) *)
  | PyObject (x : Item)         (* the Python object itself *)
  | QVariantInvalid.            (* QtCore.QVariant() *)

(** [app_.settings] *)
Record App := mkApp {
  settings_fontsize : Z;
  settings_font : string;
}.

(** The attributes of a [DialogSelectItems] instance. *)
Record Dialog := mkDialog {
  data : loc;                    (* self.data: the caller's list itself *)
  selection_mode : string;
  groups : loc;
  data_refined : option loc;     (* None until fill_list ran *)
  model : option ListModel;
  comboBox : ComboBox;
  listView : ListView;
  windowTitle : string;
  styleSheet : string;
}.

(** The dialog after the user highlighted rows of its list view. *)
Definition user_select (current : Z) (selected : list Z) (self : Dialog) : Dialog :=
  mkDialog (data self) (selection_mode self) (groups self) (data_refined self)
           (model self) (comboBox self) (highlight current selected (listView self))
           (windowTitle self) (styleSheet self).

(** The dialog after the user picked entry [index] of the group filter (the
    slot connected to [currentIndexChanged] then runs [fill_list]). *)
Definition user_pick_group (index : Z) (self : Dialog) : Dialog :=
  mkDialog (data self) (selection_mode self) (groups self) (data_refined self)
           (model self)
           (mkComboBox (cb_enabled (comboBox self)) (cb_items (comboBox self)) index)
           (listView self) (windowTitle self) (styleSheet self).

Section SelectItems.

(** gettext's [_], installed by the application at start-up. *)
Variable tr : string → string.

(** The order in which [list(set(xs))] enumerates the distinct elements of
    [xs]; Python leaves it unspecified. *)
Variable list_of_set : list Item → list Item.

(** *** [exception_handler] *)

(** The events of one call of [exception_handler]. *)
Definition exception_handler : Handler :=
  λ exception_type value tb_obj,
    let tb := join newline tb_obj in
    let text := "Traceback (most recent call last):" +:+ newline +:+ tb +:+ newline
                +:+ exception_type +:+ ": " +:+ value in
    [ EvPrint text;
      EvLoggerError (tr "Uncaught exception: " +:+ text);
      EvCritical (tr "Uncaught Exception") text ].

(** *** [ListModel] *)

(** [ListModel.__init__] *)
Definition ListModel_init (data_list : loc) : M ListModel :=
  let! _ := set_excepthook exception_handler in
  ret (mkListModel data_list).

(** [ListModel.rowCount] *)
Definition ListModel_rowCount (self : ListModel) : M Z :=
  py_len (lm_list self).

(** [ListModel.data], for the row of [index] *)
Definition ListModel_data (self : ListModel) (row : Z) (role : ItemDataRole) : M DataAnswer :=
  match role with
  | DisplayRole =>
      let! row_item := list_getitem (lm_list self) row in
      let! name := getitem row_item "name" in
      ret (QVariant name)
  | UserRole =>
      let! row_item := list_getitem (lm_list self) row in
      ret (PyObject row_item)
  | OtherRole _ => ret QVariantInvalid
  end.

(** *** [DialogSelectItems] *)

(** [list(set(xs))]: the elements have to be hashable, which dictionaries
    and lists are not. *)
Definition py_list_set (xs : list Item) : M (list Item) :=
  if forallb (λ x, match x with IVal _ => true | IRef _ => false end) xs
  then ret (list_of_set xs)
  else raise TypeError.

(** [self.data_refined = dr; self.model = m; self.ui.listView.setModel(m)] *)
Definition set_view (dr : loc) (m : ListModel) (self : Dialog) : Dialog :=
  mkDialog (data self) (selection_mode self) (groups self) (Some dr) (Some m)
           (comboBox self) (setModel m (listView self))
           (windowTitle self) (styleSheet self).

(** The body of the loop of [fill_list]:
    [if d['group'] == grouper: self.data_refined.append(d)]. *)
Definition fill_list_body (data_refined : loc) (grouper : string) (d : Item) : M unit :=
  let! g := getitem d "group" in
  if bool_decide (g = PStr grouper)
  then list_append data_refined d
  else ret tt.

(** [fill_list]: the dialog with its new view and model.  The result is the
    dialog as the method leaves it when it returns; when it raises, only the
    world it leaves is reported. *)
Definition fill_list (self : Dialog) : M Dialog :=
  let! data_refined := copy_copy (data self) in
  let grouper := currentText (comboBox self) in
  let! gs := read_list (groups self) in
  if bool_decide (gs = []) || bool_decide (grouper = "All") then
    let! model := ListModel_init data_refined in
    ret (set_view data_refined model self)
  else
    let! data_refined := alloc (OList []) in
    let! ds := read_list (data self) in
    let! _ := for_each ds (fill_list_body data_refined grouper) in
    let! model := ListModel_init data_refined in
    ret (set_view data_refined model self).

(** The body of the loop of [__init__] over the records: the check of the
    name and the collection of the group. *)
Definition init_body (groups : loc) (no_name_key : bool) (d : Item) : M bool :=
  let! name := getitem d "name" in
  let no_name_key := if truthy name then no_name_key else true in
  let! _ := try_except_KeyError (
              let! g := getitem d "group" in
              list_append groups (IVal g)) in
  ret no_name_key.

(** [__init__]: the constructed dialog.  [data] is the reference the caller
    passes, which [self.data] keeps as it is. *)
Definition DialogSelectItems_init (app_ : App) (data : loc) (title selection_mode : string)
  : M Dialog :=
  let! _ := set_excepthook exception_handler in
  let font := "font: " +:+ pretty (settings_fontsize app_) +:+ "pt " in
  let font := font +:+ dquote +:+ settings_font app_ +:+ dquote +:+ ";" in
  let! n := py_len data in
  let! _ := if n =? 0
            then emit (EvMessage (tr "Dictionary is empty") (tr "No data to select from")
                                 "warning")
            else ret tt in
  let no_name_key := false in
  let! groups := alloc (OList []) in
  let! ds := read_list data in
  let! no_name_key := for_fold ds no_name_key (init_body groups) in
  let! _ := if no_name_key
            then emit (EvMessage
                         (tr ("Dictionary has no " +:+ dquote +:+ "name" +:+ dquote +:+ " key"))
                         (tr "This data does not contain names to select from")
                         "warning")
            else ret tt in
  let! gs := read_list groups in
  let! (groups, comboBox) :=
    if bool_decide (gs = []) then ret (groups, setupUi_comboBox)
    else
      let! elems := py_list_set gs in
      let! groups := alloc (OList elems) in
      let! _ := list_insert groups 0 (IVal (PStr (tr "All"))) in
      let comboBox := setEnabled true setupUi_comboBox in
      let! gs := read_list groups in
      let! comboBox := addItems gs comboBox in
      ret (groups, comboBox) in
  let listView :=
    if bool_decide (selection_mode = "single")
    then setSelectionMode SingleSelection setupUi_listView
    else setSelectionMode ExtendedSelection setupUi_listView in
  fill_list (mkDialog data selection_mode groups None None comboBox listView title font).

(** [get_selected]: a reference to a new empty list, the element of
    [data_refined] at the current row, or a reference to a new list of the
    elements at the selected rows. *)
Definition get_selected (self : Dialog) : M Item :=
  if bool_decide (selection_mode self = "single") then
    let current := lv_current (listView self) in
    if current =? -1 then
      let! empty := alloc (OList []) in
      ret (IRef empty)
    else
      match data_refined self with
      | Some data_refined => list_getitem data_refined current
      | None => raise TypeError
      end
  else
    let! selected := alloc (OList []) in
    let! _ := for_each (lv_selected (listView self)) (λ row,
                match data_refined self with
                | Some data_refined =>
                    let! x := list_getitem data_refined row in
                    list_append selected x
                | None => raise TypeError
                end) in
    ret (IRef selected).

(** The slot connected to [comboBox.currentIndexChanged]: the user picks
    entry [index] of the group filter. *)
Definition on_currentIndexChanged (index : Z) (self : Dialog) : M Dialog :=
  fill_list (user_pick_group index self).

End SelectItems.

Arguments exception_handler tr exception_type value tb_obj /.

(** ** Specification vocabulary *)

(** The record dictionary an element of a list refers to. *)
Definition record_at (h : gmap loc Obj) (d : Item) (r : gmap string PyVal) : Prop :=
  ∃ l, d = IRef l ∧ h !! l = Some (ODict r).

(** [data] is a list object whose elements [ds] refer to the record
    dictionaries [rs]: the caller's Record Set. *)
Definition record_set (h : gmap loc Obj) (data : loc) (ds : list Item)
    (rs : list (gmap string PyVal)) : Prop :=
  h !! data = Some (OList ds) ∧ Forall2 (record_at h) ds rs.

(** A Record of the data model: it has a "name"; its "group", when it has
    one, is a string. *)
Definition wf_record (r : gmap string PyVal) : Prop :=
  is_Some (r !! "name") ∧ ∀ v, r !! "group" = Some v → ∃ s, v = PStr s.

(** The "group" values the records carry, in list order. *)
Definition group_values (rs : list (gmap string PyVal)) : list Item :=
  omap (λ r : gmap string PyVal, IVal <$> r !! "group") rs.

(** Some record has a "name" that is present and falsy. *)
Definition falsy_name (r : gmap string PyVal) : bool :=
  match r !! "name" with
  | Some v => negb (truthy v)
  | None => false
  end.

(** The field [key] of the record the list element [d] refers to. *)
Definition item_field (h : gmap loc Obj) (d : Item) (key : string) : option PyVal :=
  match d with
  | IRef l => match h !! l with
              | Some (ODict r) => r !! key
              | _ => None
              end
  | IVal _ => None
  end.

(** The two warnings of the constructor. *)
Definition warning_empty (tr : string → string) : Event :=
  EvMessage (tr "Dictionary is empty") (tr "No data to select from") "warning".

Definition warning_no_name (tr : string → string) : Event :=
  EvMessage (tr ("Dictionary has no " +:+ dquote +:+ "name" +:+ dquote +:+ " key"))
            (tr "This data does not contain names to select from") "warning".

(** The texts of a list of strings. *)
Definition texts_of (xs : list Item) : list string :=
  omap (λ x, match x with IVal (PStr s) => Some s | _ => None end) xs.

Definition is_str (x : Item) : Prop := ∃ s, x = IVal (PStr s).

(** The view [fill_list] builds for a group: the elements whose record has
    that group, in list order. *)
Definition group_view (h : gmap loc Obj) (grouper : string) (ds : list Item) : list Item :=
  filter (λ d, item_field h d "group" = Some (PStr grouper)) ds.

(** The Filtered View after [fill_list]: everything when there are no groups
    or the filter shows "All", otherwise the elements of the chosen group. *)
Definition filtered_view (h : gmap loc Obj) (gs : list Item) (grouper : string)
    (ds : list Item) : list Item :=
  if bool_decide (gs = []) || bool_decide (grouper = "All")
  then ds
  else group_view h grouper ds.

(** [list(set(xs))] enumerates exactly the elements of [xs], each once. *)
Definition set_enumeration (list_of_set : list Item → list Item) : Prop :=
  ∀ xs, NoDup (list_of_set xs) ∧ ∀ x, x ∈ list_of_set xs ↔ x ∈ xs.

(** The entries of the group filter after construction. *)
Definition group_entries (tr : string → string) (list_of_set : list Item → list Item)
    (gs : list Item) : list Item :=
  if bool_decide (gs = []) then [] else IVal (PStr (tr "All")) :: list_of_set gs.

(** The warnings of construction. *)
Definition init_warnings (tr : string → string) (rs : list (gmap string PyVal))
    : list Event :=
  (if bool_decide (rs = []) then [warning_empty tr] else [])
  ++ (if existsb falsy_name rs then [warning_no_name tr] else []).

(** [part] occurs in [text]. *)
Definition occurs_in (part text : string) : Prop :=
  ∃ pre post, text = pre +:+ part +:+ post.

(** ** A weakest-precondition calculus for [M] *)

(** [wp m Q E w]: run from [w], [m] either returns a value and a world
    satisfying [Q] or raises an exception satisfying [E]. *)
Definition wp {A} (m : M A) (Q : A → World → Prop) (E : Exn → World → Prop)
    (w : World) : Prop :=
  match m w with
  | (Ok a, w') => Q a w'
  | (Raise e, w') => E e w'
  end.

(** ** Invariants of the world *)

(** [m] keeps the invariant [P], whether it returns or raises. *)
Definition preserves {A} (P : World → Prop) (m : M A) : Prop :=
  ∀ w, P w → P (m w).2.

(** Every object of [h0] is still there, unchanged. *)
Definition extends (h0 : gmap loc Obj) : World → Prop :=
  λ w, h0 ⊆ heap w.

(** An invariant that does not look at the heap. *)
Definition heap_blind (P : World → Prop) : Prop :=
  ∀ w h, P w → P (set_heap h w).

(** The exception hook is [h]. *)
Definition hook_is (h : Handler) : World → Prop := λ w, excepthook w = h.

(** The events so far are [evs]. *)
Definition events_are (evs : list Event) : World → Prop := λ w, events w = evs.

(** ** Example data *)

(** The record [{"name": name, "group": group}]. *)
Definition grouped_record (name group : string) : Obj :=
  ODict (<["name" := PStr name]> (<["group" := PStr group]> ∅)).

(** The record [{"name": name}]. *)
Definition plain_record (name : PyVal) : Obj :=
  ODict (<["name" := name]> ∅).

Definition quiet_hook : Handler := λ _ _ _, [].

Definition example_app : App := mkApp 12 "Sans".

(** [[{"name":"A","group":"x"}, {"name":"B","group":"y"}, {"name":"C","group":"x"}]]
    as the list object 4 over the records 1, 2 and 3. *)
Definition abc_world : World :=
  mkWorld
    (<[1%positive := grouped_record "A" "x"]>
       (<[2%positive := grouped_record "B" "y"]>
          (<[3%positive := grouped_record "C" "x"]>
             (<[4%positive := OList [IRef 1%positive; IRef 2%positive; IRef 3%positive]]> ∅))))
    quiet_hook [].

(** [[{"name":"A","group":"x"}, {"name":"B"}]]: only the first record
    carries a group. *)
Definition mixed_world : World :=
  mkWorld
    (<[1%positive := grouped_record "A" "x"]>
       (<[2%positive := plain_record (PStr "B")]>
          (<[4%positive := OList [IRef 1%positive; IRef 2%positive]]> ∅)))
    quiet_hook [].

(** [[{"group":"x"}]]: a record without a name. *)
Definition nameless_world : World :=
  mkWorld
    (<[1%positive := ODict (<["group" := PStr "x"]> ∅)]>
       (<[4%positive := OList [IRef 1%positive]]> ∅))
    quiet_hook [].

(** [[{"name":""}, {"name":None}, {"name":"C"}]]: two names that are there
    but falsy. *)
Definition falsy_world : World :=
  mkWorld
    (<[1%positive := plain_record (PStr "")]>
       (<[2%positive := plain_record PNone]>
          (<[3%positive := plain_record (PStr "C")]>
             (<[4%positive := OList [IRef 1%positive; IRef 2%positive; IRef 3%positive]]> ∅))))
    quiet_hook [].

(** Construction over the list object 4, untranslated, with the distinct
    groups in the order of their last occurrence. *)
Definition example_init (mode : string) : M Dialog :=
  DialogSelectItems_init (λ s, s) remove_dups example_app 4%positive "Select" mode.

(** The dialog over [abc_world] in multiple selection mode, the group filter
    on "x" and both rows of the view highlighted; [abc_opened] is the world
    this dialog lives in. *)
Definition abc_dialog : Dialog :=
  mkDialog 4%positive "multiple" 6%positive (Some 9%positive)
    (Some (mkListModel 9%positive))
    (mkComboBox true ["All"; "y"; "x"] 2)
    (mkListView ExtendedSelection (Some (mkListModel 9%positive)) 1 [0; 1])
    "Select" ("font: 12pt " +:+ dquote +:+ "Sans" +:+ dquote +:+ ";").

Definition abc_opened : World :=
  ((let! self := example_init "multiple" in
    on_currentIndexChanged (λ s, s) 2 self) abc_world).2.

(** ** The view and the states of a dialog *)

(** The Filtered View of a dialog in a world: the elements of the list that
    [self.data_refined] refers to. *)
Definition current_view (self : Dialog) (w : World) : option (list Item) :=
  match data_refined self with
  | Some dr => match heap w !! dr with
               | Some (OList view) => Some view
               | _ => None
               end
  | None => None
  end.

(** The view that a computation which builds or changes a dialog ends with. *)
Definition view_after (r : Res Dialog * World) : option (list Item) :=
  match r with
  | (Ok self, w) => current_view self w
  | (Raise _, _) => None
  end.



(** * Proofs *)

(** ** Rules of the calculus *)

Section WpRules.
Context {A B : Type}.
Implicit Types (Q : A → World → Prop) (E : Exn → World → Prop) (w : World).

Lemma wp_ret (a : A) Q E w : Q a w → wp (ret a) Q E w.
Proof. done. Qed.

Lemma wp_raise e Q E w : E e w → wp (raise e) Q E w.
Proof. done. Qed.

Lemma wp_bind (m : M B) (f : B → M A) Q E w :
  wp m (λ b w', wp (f b) Q E w') E w → wp (bind m f) Q E w.
Proof. unfold wp, bind. by destruct (m w) as [[b|e] w']. Qed.

Lemma wp_mono (m : M A) Q Q' E E' w :
  wp m Q E w →
  (∀ a w', Q a w' → Q' a w') → (∀ e w', E e w' → E' e w') →
  wp m Q' E' w.
Proof. unfold wp. destruct (m w) as [[a|e] w']; auto. Qed.

End WpRules.

Section WpPrimitives.
Implicit Types (E : Exn → World → Prop) (w : World) (l : loc).

Lemma wp_alloc o (Q : loc → World → Prop) E w :
  (∀ l, heap w !! l = None → Q l (set_heap (<[l := o]> (heap w)) w)) →
  wp (alloc o) Q E w.
Proof.
  intros H. unfold wp, alloc. apply H.
  apply not_elem_of_dom, is_fresh.
Qed.

Lemma wp_read_list l (Q : list Item → World → Prop) E w :
  (∀ xs, heap w !! l = Some (OList xs) → Q xs w) →
  ((∀ xs, heap w !! l ≠ Some (OList xs)) → E TypeError w) →
  wp (read_list l) Q E w.
Proof.
  intros HQ HE. unfold wp, read_list.
  destruct (heap w !! l) as [[r|xs]|] eqn:Hl; [apply HE | by apply HQ | apply HE]; done.
Qed.

Lemma wp_copy_copy l (Q : loc → World → Prop) E w :
  (∀ o l', heap w !! l = Some o → heap w !! l' = None →
           Q l' (set_heap (<[l' := o]> (heap w)) w)) →
  (heap w !! l = None → E TypeError w) →
  wp (copy_copy l) Q E w.
Proof.
  intros HQ HE. unfold wp, copy_copy.
  destruct (heap w !! l) as [o|] eqn:Hl; [|by apply HE].
  apply (wp_alloc o Q E w). intros l'. by apply HQ.
Qed.

End WpPrimitives.

(** ** Keeping an invariant *)

Section Preserves.
Context (P : World → Prop).

Lemma preserves_ret {A} (a : A) : preserves P (ret a).
Proof. by intros w. Qed.

Lemma preserves_raise {A} e : preserves P (raise (A:=A) e).
Proof. by intros w. Qed.

Lemma preserves_bind {A B} (m : M A) (f : A → M B) :
  preserves P m → (∀ a, preserves P (f a)) → preserves P (bind m f).
Proof.
  intros Hm Hf w Hw. unfold bind. specialize (Hm w Hw).
  destruct (m w) as [[a|e] w']; simpl in *; [by apply Hf | done].
Qed.

Lemma preserves_try_except_KeyError (m : M unit) :
  preserves P m → preserves P (try_except_KeyError m).
Proof.
  intros Hm w Hw. unfold try_except_KeyError. specialize (Hm w Hw).
  destruct (m w) as [[[]|[k| |]] w']; done.
Qed.

Lemma preserves_for_fold {A B} (xs : list A) (acc : B) (body : B → A → M B) :
  (∀ acc x, preserves P (body acc x)) → preserves P (for_fold xs acc body).
Proof.
  intros Hbody. revert acc.
  induction xs as [|x xs IH]; intros acc; simpl.
  - apply preserves_ret.
  - apply preserves_bind; auto.
Qed.

Lemma preserves_for_each {A} (xs : list A) (body : A → M unit) :
  (∀ x, preserves P (body x)) → preserves P (for_each xs body).
Proof. intros Hbody. apply preserves_for_fold. auto. Qed.

(** Reading never changes the world. *)
Lemma preserves_read_list l : preserves P (read_list l).
Proof. intros w Hw. unfold read_list. by repeat case_match. Qed.

Lemma preserves_py_len l : preserves P (py_len l).
Proof. apply preserves_bind; [apply preserves_read_list | intros; apply preserves_ret]. Qed.

Lemma preserves_list_getitem l i : preserves P (list_getitem l i).
Proof. intros w Hw. unfold list_getitem. by repeat case_match. Qed.

Lemma preserves_getitem d key : preserves P (getitem d key).
Proof. intros w Hw. unfold getitem. by repeat case_match. Qed.

Lemma preserves_addItems xs cb : preserves P (addItems xs cb).
Proof. intros w Hw. unfold addItems. by case_match. Qed.

(** Writing to the heap keeps what does not look at the heap. *)
Lemma preserves_alloc o : heap_blind P → preserves P (alloc o).
Proof. intros HP w Hw. apply HP, Hw. Qed.

Lemma preserves_copy_copy l : heap_blind P → preserves P (copy_copy l).
Proof.
  intros HP w Hw. unfold copy_copy. case_match; [|done]. by apply preserves_alloc.
Qed.

Lemma preserves_list_append l x : heap_blind P → preserves P (list_append l x).
Proof.
  intros HP w Hw. unfold list_append. repeat case_match; try done. apply HP, Hw.
Qed.

Lemma preserves_list_insert l i x : heap_blind P → preserves P (list_insert l i x).
Proof.
  intros HP w Hw. unfold list_insert. repeat case_match; try done. apply HP, Hw.
Qed.
End Preserves.

(** ** The objects that were there before *)

Section Extends.
Context (h0 : gmap loc Obj).

Lemma extends_refl w : h0 = heap w → extends h0 w.
Proof. intros Heq. unfold extends. rewrite Heq. reflexivity. Qed.

Lemma extends_fresh w l : extends h0 w → heap w !! l = None → h0 !! l = None.
Proof. intros Hw Hl. by eapply lookup_weaken_None. Qed.

Lemma extends_write w l o :
  extends h0 w → h0 !! l = None → extends h0 (set_heap (<[l := o]> (heap w)) w).
Proof. intros Hw Hl. by apply insert_subseteq_r. Qed.

(** Events and the exception hook are not part of the heap. *)
Lemma preserves_extends_emit ev : preserves (extends h0) (emit ev).
Proof. by intros w. Qed.

Lemma preserves_extends_set_excepthook h : preserves (extends h0) (set_excepthook h).
Proof. by intros w. Qed.

(** A new object is outside [h0]; what is done with it may rely on that. *)
Lemma preserves_extends_alloc {A} o (f : loc → M A) :
  (∀ l, h0 !! l = None → preserves (extends h0) (f l)) →
  preserves (extends h0) (bind (alloc o) f).
Proof.
  intros Hf w Hw. unfold bind, alloc.
  set (l := fresh (dom (heap w))).
  assert (heap w !! l = None) as Hl by apply not_elem_of_dom, is_fresh.
  apply Hf; [by eapply extends_fresh | apply extends_write; [done|]].
  by eapply extends_fresh.
Qed.

Lemma preserves_extends_copy_copy {A} l0 (f : loc → M A) :
  (∀ l, h0 !! l = None → preserves (extends h0) (f l)) →
  preserves (extends h0) (bind (copy_copy l0) f).
Proof.
  intros Hf w Hw. unfold bind, copy_copy.
  destruct (heap w !! l0) as [o|] eqn:Hl0; [|done].
  by apply (preserves_extends_alloc o f Hf w).
Qed.

(** Writing to an object outside [h0]. *)
Lemma preserves_extends_list_append l x :
  h0 !! l = None → preserves (extends h0) (list_append l x).
Proof.
  intros Hl w Hw. unfold list_append. repeat case_match; try done.
  by apply extends_write.
Qed.

Lemma preserves_extends_list_insert l i x :
  h0 !! l = None → preserves (extends h0) (list_insert l i x).
Proof.
  intros Hl w Hw. unfold list_insert. repeat case_match; try done.
  by apply extends_write.
Qed.
End Extends.

Section SelectItemsInvariants.
Context (tr : string → string) (list_of_set : list Item → list Item).

Lemma preserves_py_list_set P xs : preserves P (py_list_set list_of_set xs).
Proof. intros w Hw. unfold py_list_set. by case_match. Qed.

(** *** The heap the caller sees *)

Lemma preserves_extends_ListModel_init h0 l :
  preserves (extends h0) (ListModel_init tr l).
Proof.
  apply preserves_bind; [apply preserves_extends_set_excepthook|].
  intros _. apply preserves_ret.
Qed.

Lemma preserves_extends_fill_list h0 self :
  preserves (extends h0) (fill_list tr self).
Proof.
  unfold fill_list.
  apply preserves_extends_copy_copy. intros dr Hdr.
  apply preserves_bind; [apply preserves_read_list|]. intros gs.
  case_match.
  - apply preserves_bind; [apply preserves_extends_ListModel_init|].
    intros m. apply preserves_ret.
  - apply preserves_extends_alloc. intros dr' Hdr'.
    apply preserves_bind; [apply preserves_read_list|]. intros ds.
    apply preserves_bind.
    + apply preserves_for_each. intros d. unfold fill_list_body.
      apply preserves_bind; [apply preserves_getitem|]. intros g.
      case_match; [by apply preserves_extends_list_append | apply preserves_ret].
    + intros _. apply preserves_bind; [apply preserves_extends_ListModel_init|].
      intros m. apply preserves_ret.
Qed.

Lemma preserves_extends_init h0 app_ data title mode :
  preserves (extends h0) (DialogSelectItems_init tr list_of_set app_ data title mode).
Proof.
  unfold DialogSelectItems_init.
  apply preserves_bind; [apply preserves_extends_set_excepthook|]. intros _.
  apply preserves_bind; [apply preserves_py_len|]. intros n.
  apply preserves_bind.
  { case_match; [apply preserves_extends_emit | apply preserves_ret]. }
  intros _. apply preserves_extends_alloc. intros g Hg.
  apply preserves_bind; [apply preserves_read_list|]. intros ds.
  apply preserves_bind.
  { apply preserves_for_fold. intros acc d. unfold init_body.
    apply preserves_bind; [apply preserves_getitem|]. intros name.
    apply preserves_bind; [|intros; apply preserves_ret].
    apply preserves_try_except_KeyError.
    apply preserves_bind; [apply preserves_getitem|]. intros gv.
    by apply preserves_extends_list_append. }
  intros no_name_key. apply preserves_bind.
  { case_match; [apply preserves_extends_emit | apply preserves_ret]. }
  intros _. apply preserves_bind; [apply preserves_read_list|]. intros gs.
  apply preserves_bind.
  { case_match; [apply preserves_ret|].
    apply preserves_bind; [apply preserves_py_list_set|]. intros elems.
    apply preserves_extends_alloc. intros g' Hg'.
    apply preserves_bind; [by apply preserves_extends_list_insert|]. intros _.
    apply preserves_bind; [apply preserves_read_list|]. intros gs'.
    apply preserves_bind; [apply preserves_addItems|]. intros cb.
    apply preserves_ret. }
  intros [g' cb]. apply preserves_extends_fill_list.
Qed.

Lemma preserves_extends_get_selected h0 self :
  preserves (extends h0) (get_selected self).
Proof.
  unfold get_selected. repeat case_match.
  - apply preserves_extends_alloc. intros sel Hsel. apply preserves_ret.
  - apply preserves_list_getitem.
  - apply preserves_raise.
  - apply preserves_extends_alloc. intros sel Hsel.
    apply preserves_bind; [|intros; apply preserves_ret].
    apply preserves_for_each. intros row.
    apply preserves_bind; [apply preserves_list_getitem|]. intros x.
    by apply preserves_extends_list_append.
  - apply preserves_extends_alloc. intros sel Hsel.
    apply preserves_bind; [|intros; apply preserves_ret].
    apply preserves_for_each. intros row. apply preserves_raise.
Qed.
End SelectItemsInvariants.

(** ** Facts about the primitives *)

Lemma set_heap_id w : set_heap (heap w) w = w.
Proof. by destruct w. Qed.

Lemma py_insert_0 xs x : py_insert xs 0 x = x :: xs.
Proof.
  unfold py_insert, insert_pos. simpl.
  replace (Z.to_nat (Z.min 0 (Z.of_nat (length xs)))) with 0%nat by lia.
  by rewrite take_0, drop_0.
Qed.

Lemma py_index_lookup xs (i : nat) x :
  xs !! i = Some x → py_index xs (Z.of_nat i) = Ok x.
Proof.
  intros Hi. pose proof (lookup_lt_Some _ _ _ Hi) as Hlt.
  unfold py_index.
  destruct (Z.ltb_spec (Z.of_nat i) 0) as [?|_]; [lia|].
  destruct (Z.leb_spec 0 (Z.of_nat i)) as [_|?]; [|lia].
  destruct (Z.ltb_spec (Z.of_nat i) (Z.of_nat (length xs))) as [_|?]; [|lia].
  simpl. by rewrite Nat2Z.id, Hi.
Qed.

Lemma record_at_insert_list h d r g xs ys :
  h !! g = Some (OList xs) → record_at h d r → record_at (<[g := OList ys]> h) d r.
Proof.
  intros Hg (l & -> & Hl). exists l. split; [done|].
  rewrite lookup_insert_ne; [done | congruence].
Qed.

Lemma record_at_insert_fresh h d r g o :
  h !! g = None → record_at h d r → record_at (<[g := o]> h) d r.
Proof.
  intros Hg (l & -> & Hl). exists l. split; [done|].
  rewrite lookup_insert_ne; [done | congruence].
Qed.

Lemma record_at_item_field h d r key :
  record_at h d r → item_field h d key = r !! key.
Proof. intros (l & -> & Hl). simpl. by rewrite Hl. Qed.

Lemma item_field_insert_list h d key g xs ys :
  h !! g = Some (OList xs) →
  item_field (<[g := OList ys]> h) d key = item_field h d key.
Proof.
  intros Hg. destruct d as [v|l]; [done|]. simpl.
  destruct (decide (g = l)) as [->|Hne].
  - by rewrite lookup_insert_eq, Hg.
  - by rewrite lookup_insert_ne.
Qed.

Lemma item_field_alloc_list h d key g ys :
  h !! g = None →
  item_field (<[g := OList ys]> h) d key = item_field h d key.
Proof.
  intros Hg. destruct d as [v|l]; [done|]. simpl.
  destruct (decide (g = l)) as [->|Hne].
  - by rewrite lookup_insert_eq, Hg.
  - by rewrite lookup_insert_ne.
Qed.

Lemma as_texts_strs xs : Forall is_str xs → as_texts xs = Some (texts_of xs).
Proof.
  induction 1 as [|x xs [s ->] _ IH]; [done|].
  simpl. by rewrite IH.
Qed.

Lemma group_values_strs rs : Forall wf_record rs → Forall is_str (group_values rs).
Proof.
  induction 1 as [|r rs [_ Hr] _ IH]; [constructor|].
  unfold group_values in *. simpl.
  destruct (r !! "group") as [v|] eqn:Hg; simpl; [|done].
  constructor; [|done]. destruct (Hr v) as [s ->]; [done|]. by exists s.
Qed.

Lemma bind_ok {A B} (m : M A) (f : A → M B) w a w' :
  m w = (Ok a, w') → bind m f w = f a w'.
Proof. unfold bind. by intros ->. Qed.

Lemma bind_raise {A B} (m : M A) (f : A → M B) w e w' :
  m w = (Raise e, w') → bind m f w = (Raise e, w').
Proof. unfold bind. by intros ->. Qed.

Lemma read_list_run l xs w :
  heap w !! l = Some (OList xs) → read_list l w = (Ok xs, w).
Proof. unfold read_list. by intros ->. Qed.

Lemma py_len_run l xs w :
  heap w !! l = Some (OList xs) → py_len l w = (Ok (Z.of_nat (length xs)), w).
Proof. intros Hl. unfold py_len. by rewrite (bind_ok _ _ _ _ _ (read_list_run _ _ _ Hl)). Qed.

Lemma list_insert_run l i x xs w :
  heap w !! l = Some (OList xs) →
  list_insert l i x w = (Ok tt, set_heap (<[l := OList (py_insert xs i x)]> (heap w)) w).
Proof. unfold list_insert. by intros ->. Qed.

Lemma list_getitem_run l (i : nat) x xs w :
  heap w !! l = Some (OList xs) → xs !! i = Some x →
  list_getitem l (Z.of_nat i) w = (Ok x, w).
Proof. unfold list_getitem. intros -> Hi. by rewrite (py_index_lookup _ _ _ Hi). Qed.

(** ** The loops *)

Section Loops.
Context (tr : string → string).

Lemma init_body_run g b d r v gs0 w :
  record_at (heap w) d r → r !! "name" = Some v → heap w !! g = Some (OList gs0) →
  init_body g b d w =
    (Ok (if truthy v then b else true),
     match r !! "group" with
     | Some gv => set_heap (<[g := OList (gs0 ++ [IVal gv])]> (heap w)) w
     | None => w
     end).
Proof.
  intros (l & -> & Hl) Hname Hg.
  unfold init_body, bind, try_except_KeyError, getitem, list_append, ret.
  rewrite Hl, Hname. cbv beta iota. rewrite Hl.
  destruct (r !! "group") as [gv|]; [|done].
  by rewrite Hg.
Qed.

(** A record without a name stops the loop with a [KeyError]. *)
Lemma init_body_no_name g b d r w :
  record_at (heap w) d r → r !! "name" = None →
  init_body g b d w = (Raise (KeyError "name"), w).
Proof.
  intros (l & -> & Hl) Hname.
  unfold init_body, bind, getitem. by rewrite Hl, Hname.
Qed.

Lemma init_loop_run g ds : ∀ rs b gs0 w,
  Forall2 (record_at (heap w)) ds rs →
  Forall (λ r : gmap string PyVal, is_Some (r !! "name")) rs →
  heap w !! g = Some (OList gs0) →
  for_fold ds b (init_body g) w =
    (Ok (b || existsb falsy_name rs),
     set_heap (<[g := OList (gs0 ++ group_values rs)]> (heap w)) w).
Proof.
  induction ds as [|d ds IH]; intros rs b gs0 w Hrs Hnames Hg.
  - apply Forall2_nil_inv_l in Hrs as ->. simpl. unfold ret.
    rewrite orb_false_r, app_nil_r, insert_id, set_heap_id; done.
  - apply Forall2_cons_inv_l in Hrs as (r & rs' & Hr & Hrs & ->).
    apply Forall_cons in Hnames as [[v Hv] Hnames].
    simpl. unfold bind at 1. rewrite (init_body_run g b d r v gs0 w Hr Hv Hg).
    unfold group_values, falsy_name. simpl. rewrite Hv.
    destruct (r !! "group") as [gv|] eqn:Hgv; simpl.
    + rewrite (IH rs' _ (gs0 ++ [IVal gv])); simpl.
      * rewrite insert_insert_eq, <-app_assoc. simpl.
        by destruct (truthy v), b.
      * eapply Forall2_impl; [done|]. intros d' r'. by eapply record_at_insert_list.
      * done.
      * by rewrite lookup_insert_eq.
    + rewrite (IH rs' _ gs0 w Hrs Hnames Hg). by destruct (truthy v), b.
Qed.

Lemma init_loop_no_name g ds : ∀ rs b gs0 w,
  Forall2 (record_at (heap w)) ds rs →
  Exists (λ r : gmap string PyVal, r !! "name" = None) rs →
  heap w !! g = Some (OList gs0) →
  ∃ w', for_fold ds b (init_body g) w = (Raise (KeyError "name"), w')
        ∧ events w' = events w ∧ excepthook w' = excepthook w.
Proof.
  induction ds as [|d ds IH]; intros rs b gs0 w Hrs Hex Hg.
  - apply Forall2_nil_inv_l in Hrs as ->. by apply Exists_nil in Hex.
  - apply Forall2_cons_inv_l in Hrs as (r & rs' & Hr & Hrs & ->).
    simpl. unfold bind at 1.
    destruct (r !! "name") as [v|] eqn:Hv.
    + apply Exists_cons in Hex as [Hex|Hex]; [congruence|].
      rewrite (init_body_run g b d r v gs0 w Hr Hv Hg).
      destruct (r !! "group") as [gv|] eqn:Hgv.
      * edestruct (IH rs' (if truthy v then b else true) (gs0 ++ [IVal gv])
                     (set_heap (<[g := OList (gs0 ++ [IVal gv])]> (heap w)) w))
          as (w' & -> & ? & ?); [| done | by simpl; rewrite lookup_insert_eq | by eauto].
        eapply Forall2_impl; [done|]. intros d' r'. by eapply record_at_insert_list.
      * by eapply IH.
    + rewrite (init_body_no_name g b d r w Hr Hv). eauto.
Qed.

Lemma fill_list_body_run dr grouper d gv acc w :
  item_field (heap w) d "group" = Some gv → heap w !! dr = Some (OList acc) →
  fill_list_body dr grouper d w =
    (Ok tt, if bool_decide (gv = PStr grouper)
            then set_heap (<[dr := OList (acc ++ [d])]> (heap w)) w
            else w).
Proof.
  intros Hd Hdr. unfold fill_list_body, bind, getitem, list_append, ret.
  destruct d as [?|l]; [done|]. simpl in Hd.
  destruct (heap w !! l) as [[r|?]|]; try done.
  rewrite Hd. case_bool_decide; [|done]. by rewrite Hdr.
Qed.

(** A record without a group stops the loop with a [KeyError]. *)
Lemma fill_list_body_no_group dr grouper d r w :
  record_at (heap w) d r → r !! "group" = None →
  fill_list_body dr grouper d w = (Raise (KeyError "group"), w).
Proof.
  intros (l & -> & Hl) Hg. unfold fill_list_body, bind, getitem. by rewrite Hl, Hg.
Qed.

Lemma fill_list_loop_run dr grouper ds : ∀ acc w,
  Forall (λ d, is_Some (item_field (heap w) d "group")) ds →
  heap w !! dr = Some (OList acc) →
  for_each ds (fill_list_body dr grouper) w =
    (Ok tt, set_heap (<[dr := OList (acc ++ group_view (heap w) grouper ds)]> (heap w)) w).
Proof.
  unfold for_each.
  induction ds as [|d ds IH]; intros acc w Hds Hdr.
  - simpl. unfold ret. rewrite app_nil_r, insert_id, set_heap_id; done.
  - apply Forall_cons in Hds as [[gv Hgv] Hds].
    simpl. unfold bind at 1.
    rewrite (fill_list_body_run dr grouper d gv acc w Hgv Hdr).
    unfold group_view. rewrite filter_cons.
    case_bool_decide as Heq.
    + rewrite decide_True by congruence.
      rewrite (IH (acc ++ [d])); simpl.
      * rewrite insert_insert_eq, <-app_assoc. simpl.
        replace (group_view (<[dr := OList (acc ++ [d])]> (heap w)) grouper ds)
          with (group_view (heap w) grouper ds); [done|].
        apply list_filter_iff. intros d'.
        by erewrite item_field_insert_list.
      * eapply Forall_impl; [done|]. intros d'. simpl.
        by erewrite item_field_insert_list.
      * by rewrite lookup_insert_eq.
    + rewrite decide_False by congruence. by apply IH.
Qed.

Lemma fill_list_loop_no_group dr grouper ds : ∀ rs acc w,
  Forall2 (record_at (heap w)) ds rs →
  Exists (λ r : gmap string PyVal, r !! "group" = None) rs →
  heap w !! dr = Some (OList acc) →
  ∃ w', for_each ds (fill_list_body dr grouper) w = (Raise (KeyError "group"), w')
        ∧ events w' = events w.
Proof.
  unfold for_each.
  induction ds as [|d ds IH]; intros rs acc w Hrs Hex Hdr.
  - apply Forall2_nil_inv_l in Hrs as ->. by apply Exists_nil in Hex.
  - apply Forall2_cons_inv_l in Hrs as (r & rs' & Hr & Hrs & ->).
    simpl. destruct (r !! "group") as [gv|] eqn:Hgv.
    + apply Exists_cons in Hex as [Hex|Hex]; [congruence|].
      erewrite bind_ok; cycle 1.
      { eapply fill_list_body_run; [|done]. by erewrite record_at_item_field. }
      case_bool_decide; [|by eapply IH].
      edestruct (IH rs' (acc ++ [d])
                   (set_heap (<[dr := OList (acc ++ [d])]> (heap w)) w))
        as (w' & -> & ?); [| done | by simpl; rewrite lookup_insert_eq | by eauto].
      eapply Forall2_impl; [done|]. intros d' r'. by eapply record_at_insert_list.
    + erewrite bind_raise by by eapply fill_list_body_no_group. eauto.
Qed.
End Loops.

(** ** What the methods compute *)

Section Methods.
Context (tr : string → string) (list_of_set : list Item → list Item).

Lemma ListModel_init_run l w :
  ListModel_init tr l w =
    (Ok (mkListModel l), mkWorld (heap w) (exception_handler tr) (events w)).
Proof. done. Qed.

Lemma fill_list_run self w ds gs :
  heap w !! data self = Some (OList ds) →
  heap w !! groups self = Some (OList gs) →
  (gs = [] ∨ currentText (comboBox self) = "All"
   ∨ Forall (λ d, is_Some (item_field (heap w) d "group")) ds) →
  ∃ dr w',
    fill_list tr self w = (Ok (set_view dr (mkListModel dr) self), w')
    ∧ heap w' !! dr
      = Some (OList (filtered_view (heap w) gs (currentText (comboBox self)) ds))
    ∧ heap w !! dr = None
    ∧ heap w ⊆ heap w'
    ∧ excepthook w' = exception_handler tr
    ∧ events w' = events w.
Proof.
  intros Hdata Hgroups Hcase.
  unfold fill_list, filtered_view.
  unfold bind at 1. unfold copy_copy. rewrite Hdata. unfold alloc.
  set (dr0 := fresh (dom (heap w))).
  assert (heap w !! dr0 = None) as Hdr0 by apply not_elem_of_dom, is_fresh.
  set (w0 := set_heap (<[dr0 := OList ds]> (heap w)) w).
  assert (heap w ⊆ heap w0) as Hsub0 by by apply insert_subseteq.
  unfold bind at 1. unfold read_list at 1.
  replace (heap w0 !! groups self) with (Some (OList gs))
    by (symmetry; eapply lookup_weaken; done).
  destruct (bool_decide (gs = []) || bool_decide (currentText (comboBox self) = "All"))
    eqn:Hall.
  - exists dr0. eexists. split; [unfold bind; by rewrite ListModel_init_run|].
    simpl. by rewrite lookup_insert_eq.
  - apply orb_false_iff in Hall as [Hgs%bool_decide_eq_false Hgr%bool_decide_eq_false].
    destruct Hcase as [?|[?|Hds]]; [done..|].
    unfold bind at 1. unfold alloc.
    set (dr := fresh (dom (heap w0))).
    assert (heap w0 !! dr = None) as Hdr by apply not_elem_of_dom, is_fresh.
    set (w1 := set_heap (<[dr := OList []]> (heap w0)) w0).
    assert (heap w0 ⊆ heap w1) as Hsub1 by by apply insert_subseteq.
    unfold bind at 1. unfold read_list at 1.
    replace (heap w1 !! data self) with (Some (OList ds))
      by (symmetry; do 2 (eapply lookup_weaken; [|done]); done).
    unfold bind at 1.
    rewrite (fill_list_loop_run dr (currentText (comboBox self)) ds [] w1).
    + exists dr. eexists. split; [unfold bind; by rewrite ListModel_init_run|].
      simpl. rewrite lookup_insert_eq. split_and!; try done.
      * f_equal. f_equal. apply list_filter_iff. intros d.
        by rewrite !item_field_alloc_list.
      * by eapply lookup_weaken_None.
      * rewrite insert_insert_eq. etrans; [done|]. by apply insert_subseteq.
    + eapply Forall_impl; [done|]. intros d [gv Hgv]. exists gv.
      destruct d as [?|l]; [done|]. simpl in *.
      destruct (heap w !! l) as [o|] eqn:Hl; [|done].
      by rewrite (lookup_weaken _ _ _ _ Hl (transitivity Hsub0 Hsub1)).
    + by apply lookup_insert_eq.
Qed.
End Methods.

Lemma emit_if_run (b : bool) ev w :
  (if b then emit ev else ret tt) w
  = (Ok tt, mkWorld (heap w) (excepthook w) (events w ++ if b then [ev] else [])).
Proof. destruct b; [done|]. unfold ret. rewrite app_nil_r. by destruct w. Qed.

Lemma group_values_hashable rs :
  forallb (λ x, match x with IVal _ => true | IRef _ => false end) (group_values rs) = true.
Proof.
  induction rs as [|r rs IH]; [done|].
  unfold group_values in *. simpl. by destruct (r !! "group").
Qed.

(** The first steps of [__init__], up to the loop over the records: the
    hook, the check for an empty list, the new list of groups [g]. *)
Ltac init_prefix w Hdata g Hg :=
  unfold DialogSelectItems_init;
  rewrite (bind_ok _ _ w tt (mkWorld (heap w) (exception_handler _) (events w))) by done;
  erewrite bind_ok by (by apply py_len_run);
  erewrite bind_ok by apply emit_if_run;
  erewrite bind_ok by done; simpl;
  set (g := fresh (dom (heap w)));
  assert (heap w !! g = None) as Hg by apply not_elem_of_dom, is_fresh;
  erewrite bind_ok
    by (apply read_list_run; simpl; rewrite lookup_insert_ne; [exact Hdata | congruence]).

Section Construction.
Context (tr : string → string) (list_of_set : list Item → list Item).

Lemma init_run app_ data_list title mode w ds rs :
  record_set (heap w) data_list ds rs →
  Forall wf_record rs →
  (∀ xs x, x ∈ list_of_set xs → x ∈ xs) →
  tr "All" = "All" →
  ∃ self dr w',
    DialogSelectItems_init tr list_of_set app_ data_list title mode w = (Ok self, w')
    ∧ data self = data_list
    ∧ selection_mode self = mode
    ∧ data_refined self = Some dr
    ∧ model self = Some (mkListModel dr)
    ∧ windowTitle self = title
    ∧ listView self
      = mkListView (if bool_decide (mode = "single")
                    then SingleSelection else ExtendedSelection)
                   (Some (mkListModel dr)) (-1) []
    ∧ cb_enabled (comboBox self) = negb (bool_decide (group_values rs = []))
    ∧ cb_items (comboBox self)
      = texts_of (group_entries tr list_of_set (group_values rs))
    ∧ heap w' !! groups self
      = Some (OList (group_entries tr list_of_set (group_values rs)))
    ∧ heap w' !! dr = Some (OList ds)
    ∧ heap w !! dr = None
    ∧ heap w !! groups self = None
    ∧ heap w ⊆ heap w'
    ∧ excepthook w' = exception_handler tr
    ∧ events w' = events w ++ init_warnings tr rs.
Proof.
  intros [Hdata Hrs] Hwf Hset HAll.
  init_prefix w Hdata g Hg.
  assert (g ≠ data_list) as Hgd by congruence.
  erewrite bind_ok; cycle 1.
  { apply (init_loop_run g ds rs false []); simpl.
    - eapply Forall2_impl; [done|]. intros d r. by apply record_at_insert_fresh.
    - eapply Forall_impl; [done|]. by intros r [? _].
    - by rewrite lookup_insert_eq. }
  simpl. rewrite insert_insert_eq.
  erewrite bind_ok by apply emit_if_run. simpl.
  erewrite bind_ok by (apply read_list_run; simpl; by rewrite lookup_insert_eq).
  assert ((if Z.of_nat (length ds) =? 0 then [warning_empty tr] else [])
          = if bool_decide (rs = []) then [warning_empty tr] else []) as Hempty.
  { apply Forall2_length in Hrs.
    destruct ds, rs; simpl in *; try done.  }
  unfold group_entries.
  set (w2 := mkWorld _ _ _).
  assert (events w2 = events w ++ init_warnings tr rs) as Hev2.
  { subst w2. simpl. unfold init_warnings. by rewrite <-app_assoc, <-Hempty. }
  assert (heap w2 = <[g := OList (group_values rs)]> (heap w)) as Hheap2 by done.
  assert (excepthook w2 = exception_handler tr) as Hhook2 by done.
  clearbody w2.
  destruct (decide (group_values rs = [])) as [Hgs|Hgs].
  - (* no record carries a group *)
    rewrite !(bool_decide_eq_true_2 _ Hgs).
    erewrite bind_ok by done. cbv beta iota.
    set (self := mkDialog _ _ _ _ _ _ _ _ _).
    destruct (fill_list_run tr self w2 ds [])
      as (dr & w' & Hrun & Hdr & Hfresh & Hsub & Hhook & Hev).
    { subst self. simpl. by rewrite Hheap2, lookup_insert_ne. }
    { subst self. simpl. by rewrite Hheap2, lookup_insert_eq, Hgs. }
    { by left. }
    exists (set_view dr (mkListModel dr) self), dr, w'.
    rewrite Hrun, Hev, Hev2. simpl. rewrite Hheap2 in *.
    split_and!; try done.
    + by destruct (bool_decide (mode = "single")).
    + eapply lookup_weaken; [|done]. by rewrite lookup_insert_eq, Hgs.
    + rewrite lookup_insert_ne in Hfresh; [done|].
      intros <-. by rewrite lookup_insert_eq in Hfresh.
    + etrans; [|done]. by apply insert_subseteq.
  - (* some record carries a group *)
    rewrite !(bool_decide_eq_false_2 _ Hgs).
    set (gs := group_values rs) in *.
    assert (Forall is_str (list_of_set gs)) as Hstrs.
    { apply Forall_forall. intros x Hx%Hset. revert x Hx.
      by apply Forall_forall, group_values_strs. }
    set (g' := fresh (dom (heap w2))).
    assert (heap w2 !! g' = None) as Hg' by apply not_elem_of_dom, is_fresh.
    erewrite (bind_ok _ _ w2); cycle 1.
    { erewrite bind_ok
        by (unfold py_list_set; subst gs; by rewrite group_values_hashable).
      erewrite bind_ok by done.
      erewrite bind_ok by (apply list_insert_run; simpl; by rewrite lookup_insert_eq).
      erewrite bind_ok by (apply read_list_run; simpl; by rewrite lookup_insert_eq).
      rewrite py_insert_0.
      erewrite bind_ok; [done|].
      unfold addItems. by rewrite as_texts_strs by (constructor; [by eexists|done]). }
    cbv beta iota. simpl. rewrite insert_insert_eq. fold g'.
    assert (heap w2 !! data_list = Some (OList ds)) as Hdata2
      by by rewrite Hheap2, lookup_insert_ne.
    set (w3 := set_heap _ _).
    set (self := mkDialog _ _ _ _ _ _ _ _ _).
    destruct (fill_list_run tr self w3 ds (IVal (PStr (tr "All")) :: list_of_set gs))
      as (dr & w' & Hrun & Hdr & Hfresh & Hsub & Hhook & Hev).
    { subst self w3. simpl. rewrite lookup_insert_ne; [done | congruence]. }
    { subst self w3. simpl. by rewrite lookup_insert_eq. }
    { right; left. subst self. simpl. by rewrite HAll. }
    exists (set_view dr (mkListModel dr) self), dr, w'.
    rewrite Hrun, Hev. subst w3. simpl in *. rewrite Hev2, Hheap2 in *.
    apply lookup_insert_None in Hg' as [Hg' Hgg'].
    apply lookup_insert_None in Hfresh as [Hfresh Hdrg'].
    apply lookup_insert_None in Hfresh as [Hfresh Hdrg].
    split_and!; try done.
    + by destruct (bool_decide (mode = "single")).
    + eapply lookup_weaken; [|done]. by rewrite lookup_insert_eq.
    + revert Hdr. unfold filtered_view. subst self. simpl. by rewrite HAll.
    + etrans; [|done]. apply insert_subseteq_r; [done|]. by apply insert_subseteq.
Qed.
End Construction.

(** ** [get_selected] *)

Section GetSelected.
Implicit Types (self : Dialog) (w : World) (view : list Item).

Lemma single_selection_run self w dr view (i : nat) x :
  selection_mode self = "single" →
  data_refined self = Some dr →
  heap w !! dr = Some (OList view) →
  lv_current (listView self) = Z.of_nat i →
  view !! i = Some x →
  get_selected self w = (Ok x, w).
Proof.
  intros Hmode Hdr Hview Hcur Hi. unfold get_selected.
  rewrite bool_decide_eq_true_2, Hcur, Hdr by done.
  destruct (Z.eqb_spec (Z.of_nat i) (-1)) as [?|_]; [lia|].
  by eapply list_getitem_run.
Qed.

Lemma single_selection_none self w :
  selection_mode self = "single" →
  lv_current (listView self) = -1 →
  ∃ l, heap w !! l = None
       ∧ get_selected self w = (Ok (IRef l), set_heap (<[l := OList []]> (heap w)) w).
Proof.
  intros Hmode Hcur. unfold get_selected.
  rewrite bool_decide_eq_true_2, Hcur by done. simpl.
  exists (fresh (dom (heap w))). split; [apply not_elem_of_dom, is_fresh | done].
Qed.

Lemma get_selected_loop_run dr sel view rows : ∀ xs acc w,
  sel ≠ dr →
  heap w !! dr = Some (OList view) →
  heap w !! sel = Some (OList acc) →
  Forall2 (λ (row : nat) x, view !! row = Some x) rows xs →
  for_each (Z.of_nat <$> rows)
     (λ row, let! x := list_getitem dr row in list_append sel x) w
  = (Ok tt, set_heap (<[sel := OList (acc ++ xs)]> (heap w)) w).
Proof.
  unfold for_each.
  induction rows as [|row rows IH]; intros xs acc w Hne Hview Hsel Hrows.
  - apply Forall2_nil_inv_l in Hrows as ->. simpl. unfold ret.
    by rewrite app_nil_r, insert_id, set_heap_id.
  - apply Forall2_cons_inv_l in Hrows as (x & xs' & Hx & Hrows & ->).
    simpl. erewrite bind_ok; cycle 1.
    { erewrite bind_ok by by eapply list_getitem_run.
      unfold list_append. by rewrite Hsel. }
    rewrite (IH xs' (acc ++ [x])); simpl.
    + by rewrite insert_insert_eq, <-app_assoc.
    + done.
    + by rewrite lookup_insert_ne.
    + by rewrite lookup_insert_eq.
    + done.
Qed.

Lemma multiple_selection_run self w dr view rows xs :
  selection_mode self ≠ "single" →
  data_refined self = Some dr →
  heap w !! dr = Some (OList view) →
  lv_selected (listView self) = Z.of_nat <$> rows →
  Forall2 (λ (row : nat) x, view !! row = Some x) rows xs →
  ∃ l, heap w !! l = None
       ∧ get_selected self w = (Ok (IRef l), set_heap (<[l := OList xs]> (heap w)) w).
Proof.
  intros Hmode Hdr Hview Hsel Hrows. unfold get_selected.
  rewrite bool_decide_eq_false_2, Hsel, Hdr by done.
  set (l := fresh (dom (heap w))).
  assert (heap w !! l = None) as Hl by apply not_elem_of_dom, is_fresh.
  exists l. split; [done|].
  erewrite bind_ok by done. fold l.
  erewrite bind_ok; cycle 1.
  { apply (get_selected_loop_run dr l view rows xs []); simpl.
    - congruence.
    - rewrite lookup_insert_ne; [done | congruence].
    - by rewrite lookup_insert_eq.
    - done. }
  simpl. by rewrite insert_insert_eq.
Qed.

(** The rows a view can report exist in its model. *)
Lemma rows_resolve view (rows : list nat) :
  Forall (λ row, (row < length view)%nat) rows →
  ∃ xs, Forall2 (λ (row : nat) x, view !! row = Some x) rows xs.
Proof.
  induction 1 as [|row rows Hrow _ [xs IH]]; [by exists []|].
  apply lookup_lt_is_Some in Hrow as [x Hx].
  exists (x :: xs). by constructor.
Qed.

Lemma resolved_elem_of view (rows : list nat) xs x :
  Forall2 (λ (row : nat) x, view !! row = Some x) rows xs → x ∈ xs → x ∈ view.
Proof.
  induction 1 as [|row y rows xs Hy _ IH]; [by intros ?%elem_of_nil|].
  intros [->|?]%elem_of_cons; [by eapply list_elem_of_lookup_2 | auto].
Qed.

Lemma resolved_NoDup view (rows : list nat) xs :
  Forall2 (λ (row : nat) x, view !! row = Some x) rows xs →
  NoDup rows → NoDup view → NoDup xs.
Proof.
  intros Hrows Hnd Hview. revert Hnd.
  induction Hrows as [|row y rows xs Hy Hrows IH]; [constructor|].
  intros [Hrow Hnd]%NoDup_cons. constructor; [|auto].
  intros Hin. apply Hrow.
  apply list_elem_of_lookup_1 in Hin as [k Hk].
  destruct (Forall2_lookup_r _ _ _ _ _ Hrows Hk) as (row' & Hrow' & Hy').
  assert (row = row') as -> by apply (NoDup_lookup view row row' y Hview Hy Hy').
  by eapply list_elem_of_lookup_2.
Qed.
End GetSelected.

(** ** Invariants that do not depend on the heap *)

Lemma preserves_apply {A} (P : World → Prop) (m : M A) w :
  preserves P m → P w → P (m w).2.
Proof. intros Hm. apply Hm. Qed.

Lemma heap_blind_hook_is h : heap_blind (hook_is h).
Proof. by intros w h'. Qed.

Lemma heap_blind_events_are evs : heap_blind (events_are evs).
Proof. by intros w h'. Qed.

Section BlindInvariants.
Context (tr : string → string) (list_of_set : list Item → list Item).
Context (P : World → Prop).
Context (Pheap : heap_blind P).
Context (Phook : ∀ w, P w → P (mkWorld (heap w) (exception_handler tr) (events w))).

Lemma preserves_blind_ListModel_init l : preserves P (ListModel_init tr l).
Proof. intros w Hw. by apply Phook. Qed.

Lemma preserves_blind_fill_list self : preserves P (fill_list tr self).
Proof.
  unfold fill_list.
  apply preserves_bind; [by apply preserves_copy_copy|]. intros dr.
  apply preserves_bind; [apply preserves_read_list|]. intros gs.
  case_match.
  - apply preserves_bind; [apply preserves_blind_ListModel_init|].
    intros m. apply preserves_ret.
  - apply preserves_bind; [by apply preserves_alloc|]. intros dr'.
    apply preserves_bind; [apply preserves_read_list|]. intros ds.
    apply preserves_bind.
    + apply preserves_for_each. intros d. unfold fill_list_body.
      apply preserves_bind; [apply preserves_getitem|]. intros g.
      case_match; [by apply preserves_list_append | apply preserves_ret].
    + intros _. apply preserves_bind; [apply preserves_blind_ListModel_init|].
      intros m. apply preserves_ret.
Qed.

(** What [__init__] does once the records are scanned and the warnings
    shown: the group filter and the first [fill_list]. *)
Lemma preserves_blind_groups g (k : loc * ComboBox → M Dialog) :
  (∀ p, preserves P (k p)) →
  preserves P
    (let! gs := read_list g in
     let! p :=
       if bool_decide (gs = []) then ret (g, setupUi_comboBox)
       else
         let! elems := py_list_set list_of_set gs in
         let! groups := alloc (OList elems) in
         let! _ := list_insert groups 0 (IVal (PStr (tr "All"))) in
         let comboBox := setEnabled true setupUi_comboBox in
         let! gs := read_list groups in
         let! comboBox := addItems gs comboBox in
         ret (groups, comboBox) in
     k p).
Proof.
  intros Hk.
  apply preserves_bind; [apply preserves_read_list|]. intros gs.
  apply preserves_bind; [|done].
  case_match; [apply preserves_ret|].
  apply preserves_bind; [apply preserves_py_list_set|]. intros elems.
  apply preserves_bind; [by apply preserves_alloc|]. intros g'.
  apply preserves_bind; [by apply preserves_list_insert|]. intros _.
  apply preserves_bind; [apply preserves_read_list|]. intros gs'.
  apply preserves_bind; [apply preserves_addItems|]. intros cb.
  apply preserves_ret.
Qed.

Lemma preserves_blind_get_selected self : preserves P (get_selected self).
Proof.
  unfold get_selected. repeat case_match.
  - apply preserves_bind; [by apply preserves_alloc | intros; apply preserves_ret].
  - apply preserves_list_getitem.
  - apply preserves_raise.
  - apply preserves_bind; [by apply preserves_alloc|]. intros sel.
    apply preserves_bind; [|intros; apply preserves_ret].
    apply preserves_for_each. intros row.
    apply preserves_bind; [apply preserves_list_getitem|]. intros x.
    by apply preserves_list_append.
  - apply preserves_bind; [by apply preserves_alloc|]. intros sel.
    apply preserves_bind; [|intros; apply preserves_ret].
    apply preserves_for_each. intros row. apply preserves_raise.
Qed.
End BlindInvariants.

(** *** Facts for the frame and the exception hook *)

Lemma wp_True {A} (m : M A) w : wp m (λ _ _, True) (λ _ _, True) w.
Proof. unfold wp. by destruct (m w) as [[a|e] w']. Qed.

Lemma wp_inv_ok {A} (m : M A) Q E w a w' :
  wp m Q E w → m w = (Ok a, w') → Q a w'.
Proof. unfold wp. intros H Heq. by rewrite Heq in H. Qed.

Lemma bind_establishes {A B} (P : World → Prop) (m : M A) (f : A → M B) w :
  P (m w).2 → (∀ a, preserves P (f a)) → P (bind m f w).2.
Proof.
  intros Hm Hf. unfold bind. cbv beta.
  destruct (m w) as [[a|e] w']; simpl in *; [by apply Hf | done].
Qed.

(** The view of [fill_list] is a list object that did not exist before. *)
Lemma fill_list_new_view tr self w self' w' :
  fill_list tr self w = (Ok self', w') →
  ∃ dr, data_refined self' = Some dr ∧ heap w !! dr = None.
Proof.
  apply (wp_inv_ok (fill_list tr self)
           (λ self' _, ∃ dr, data_refined self' = Some dr ∧ heap w !! dr = None)
           (λ _ _, True) w self' w').
  unfold fill_list.
  apply wp_bind, wp_copy_copy; [|done]. intros o dr0 Ho Hdr0.
  apply wp_bind, wp_read_list; [|done]. intros gs Hgs.
  case_match.
  - unfold wp, bind. simpl. eauto.
  - apply wp_bind, wp_alloc. intros dr Hdr. simpl in Hdr.
    apply lookup_insert_None in Hdr as [Hdr _].
    apply wp_bind, wp_read_list; [|done]. intros ds Hds.
    apply wp_bind. eapply wp_mono; [apply wp_True | | done].
    intros _ w1 _. unfold wp, bind. simpl. eauto.
Qed.

Section Hook.
Context (tr : string → string) (list_of_set : list Item → list Item).

Lemma installed_set_excepthook w :
  hook_is (exception_handler tr) w →
  hook_is (exception_handler tr) (mkWorld (heap w) (exception_handler tr) (events w)).
Proof. done. Qed.

Lemma preserves_installed_emit ev :
  preserves (hook_is (exception_handler tr)) (emit ev).
Proof. by intros w. Qed.

Lemma init_installs app_ data_list title mode w :
  hook_is (exception_handler tr)
    (DialogSelectItems_init tr list_of_set app_ data_list title mode w).2.
Proof.
  unfold DialogSelectItems_init.
  apply bind_establishes; [done|]. intros _.
  apply preserves_bind; [apply preserves_py_len|]. intros n.
  apply preserves_bind.
  { case_match; [apply preserves_installed_emit | apply preserves_ret]. }
  intros _. apply preserves_bind; [apply preserves_alloc, heap_blind_hook_is|].
  intros g. apply preserves_bind; [apply preserves_read_list|]. intros ds.
  apply preserves_bind.
  { apply preserves_for_fold. intros acc d. unfold init_body.
    apply preserves_bind; [apply preserves_getitem|]. intros name.
    apply preserves_bind; [|intros; apply preserves_ret].
    apply preserves_try_except_KeyError.
    apply preserves_bind; [apply preserves_getitem|]. intros gv.
    apply preserves_list_append, heap_blind_hook_is. }
  intros no_name_key. apply preserves_bind.
  { case_match; [apply preserves_installed_emit | apply preserves_ret]. }
  intros _.
  apply (preserves_blind_groups tr list_of_set (hook_is (exception_handler tr))
           (heap_blind_hook_is _)).
  intros [g' cb].
  apply preserves_blind_fill_list;
    [apply heap_blind_hook_is | apply installed_set_excepthook].
Qed.
End Hook.

(** ** Strings of the traceback *)

Lemma append_assoc (s1 s2 s3 : string) : (s1 +:+ s2) +:+ s3 = s1 +:+ s2 +:+ s3.
Proof.
  induction s1 as [|c s1 IH]; [done|].
  change (String c ((s1 +:+ s2) +:+ s3) = String c (s1 +:+ s2 +:+ s3)).
  by rewrite IH.
Qed.

Lemma append_nil_r (s : string) : s +:+ "" = s.
Proof.
  induction s as [|c s IH]; [done|].
  change (String c (s +:+ "") = String c s). by rewrite IH.
Qed.

Lemma occurs_in_append_l part pre text :
  occurs_in part text → occurs_in part (pre +:+ text).
Proof.
  intros (p & q & ->). exists (pre +:+ p), q. by rewrite append_assoc.
Qed.

Lemma occurs_in_append_r part text post :
  occurs_in part text → occurs_in part (text +:+ post).
Proof.
  intros (p & q & ->). exists p, (q +:+ post). by rewrite !append_assoc.
Qed.

Lemma occurs_in_refl part : occurs_in part part.
Proof. exists "", "". simpl. by rewrite append_nil_r. Qed.

Lemma occurs_in_join sep x xs : x ∈ xs → occurs_in x (join sep xs).
Proof.
  induction xs as [|x0 xs IH]; [by intros ?%elem_of_nil|].
  intros Hx. simpl. destruct xs as [|x1 xs].
  - apply list_elem_of_singleton in Hx as ->. apply occurs_in_refl.
  - apply elem_of_cons in Hx as [->|Hx].
    + apply occurs_in_append_r, occurs_in_refl.
    + by apply occurs_in_append_l, occurs_in_append_l, IH.
Qed.

(** *** The group filter after construction *)

Lemma group_values_nil rs :
  group_values rs = [] ↔ Forall (λ r : gmap string PyVal, r !! "group" = None) rs.
Proof.
  unfold group_values. induction rs as [|r rs IH]; simpl.
  - split; [constructor | done].
  - destruct (r !! "group") as [v|] eqn:Hv; simpl.
    + split; [done|]. intros [? _]%Forall_cons. congruence.
    + rewrite IH. split; [by constructor | by intros [_ ?]%Forall_cons].
Qed.

Lemma group_values_Exists rs :
  Exists (λ r : gmap string PyVal, is_Some (r !! "group")) rs → group_values rs ≠ [].
Proof.
  intros Hex Hnil%group_values_nil.
  apply Exists_exists in Hex as (r & Hr & [v Hv]).
  rewrite Forall_forall in Hnil. specialize (Hnil r Hr). congruence.
Qed.

Lemma texts_of_strs xs :
  Forall is_str xs → (λ s, IVal (PStr s)) <$> texts_of xs = xs.
Proof.
  induction 1 as [|x xs [s ->] _ IH]; [done|].
  change (IVal (PStr s) :: ((λ s, IVal (PStr s)) <$> texts_of xs) = IVal (PStr s) :: xs).
  by rewrite IH.
Qed.

Lemma remove_dups_enumeration : set_enumeration remove_dups.
Proof.
  intros xs. split; [apply NoDup_remove_dups | intros x; apply elem_of_remove_dups].
Qed.

(** ** The example dialog *)

Example abc_dialog_opened :
  (let! self := example_init "multiple" in
   let! self := on_currentIndexChanged (λ s, s) 2 self in
   ret (user_select 1 [0; 1] self)) abc_world
  = (Ok abc_dialog, abc_opened).
Proof. vm_compute. reflexivity. Qed.

(** * The claims *)

(** C1 (the code does otherwise): with a group chosen in the filter, a
    record without a "group" makes [fill_list] raise [KeyError] at
    [d['group']] instead of leaving the record out of the view. *)
Theorem fill_list_missing_group_raises tr self w ds rs gs :
  record_set (heap w) (data self) ds rs →
  heap w !! groups self = Some (OList gs) →
  gs ≠ [] →
  currentText (comboBox self) ≠ "All" →
  Exists (λ r : gmap string PyVal, r !! "group" = None) rs →
  ∃ w', fill_list tr self w = (Raise (KeyError "group"), w').
Proof.
  intros [Hdata Hrs] Hgroups Hgs Hgr Hex.
  unfold fill_list.
  unfold bind at 1. unfold copy_copy. rewrite Hdata. unfold alloc.
  set (dr0 := fresh (dom (heap w))).
  assert (heap w !! dr0 = None) as Hdr0 by apply not_elem_of_dom, is_fresh.
  erewrite bind_ok
    by (apply read_list_run; simpl; rewrite lookup_insert_ne; [done | congruence]).
  rewrite (bool_decide_eq_false_2 _ Hgs), (bool_decide_eq_false_2 _ Hgr). simpl.
  erewrite bind_ok by done. simpl.
  set (dr := fresh (dom (<[dr0 := OList ds]> (heap w)))).
  assert (<[dr0 := OList ds]> (heap w) !! dr = None) as Hdr
    by apply not_elem_of_dom, is_fresh.
  apply lookup_insert_None in Hdr as [Hdr Hne].
  erewrite bind_ok; cycle 1.
  { apply read_list_run. simpl.
    rewrite !lookup_insert_ne; [done | congruence | congruence]. }
  match goal with
  | |- context [bind (for_each _ _) _ ?w2] =>
      destruct (fill_list_loop_no_group dr (currentText (comboBox self)) ds rs [] w2)
        as (w' & Hloop & _)
  end.
  { eapply Forall2_impl; [done|]. intros d r Hd. simpl.
    apply record_at_insert_fresh; [by rewrite lookup_insert_ne|].
    by apply record_at_insert_fresh. }
  { done. }
  { simpl. by rewrite lookup_insert_eq. }
  rewrite (bind_raise _ _ _ _ _ Hloop). eauto.
Qed.

Lemma fill_list_missing_group_raises_witness :
  ∃ self w w',
    example_init "multiple" mixed_world = (Ok self, w)
    ∧ currentText (comboBox (user_pick_group 1 self)) = "x"
    ∧ on_currentIndexChanged (λ s, s) 1 self w = (Raise (KeyError "group"), w').
Proof.
  eexists _, _.
  match goal with
  | |- ∃ w', ?run = (Ok ?self, ?w) ∧ _ =>
      assert (run = (Ok self, w)) as Hrun by (vm_compute; reflexivity);
      destruct (fill_list_missing_group_raises (λ s, s) (user_pick_group 1 self) w
                  [IRef 1%positive; IRef 2%positive]
                  [<["name" := PStr "A"]> (<["group" := PStr "x"]> ∅);
                   <["name" := PStr "B"]> ∅]
                  [IVal (PStr "All"); IVal (PStr "x")])
        as [w' Hraise]
  end.
  - split; [reflexivity|].
    repeat constructor; [by exists 1%positive | by exists 2%positive].
  - reflexivity.
  - done.
  - by vm_compute.
  - apply Exists_cons_tl, Exists_cons_hd. reflexivity.
  - exists w'. split; [exact Hrun|]. split; [reflexivity | exact Hraise].
Defined.

(** C2 (the code does otherwise): a record without a "name" makes the
    constructor raise [KeyError] at [d['name']]; no dialog is built and the
    warning about missing names is never shown. *)
Theorem init_missing_name_raises tr list_of_set app_ data_list title mode w ds rs :
  record_set (heap w) data_list ds rs →
  Exists (λ r : gmap string PyVal, r !! "name" = None) rs →
  ∃ w', DialogSelectItems_init tr list_of_set app_ data_list title mode w
        = (Raise (KeyError "name"), w')
        ∧ events w' = events w.
Proof.
  intros [Hdata Hrs] Hex.
  init_prefix w Hdata g Hg.
  match goal with
  | |- context [bind (for_fold _ _ _) _ ?w2] =>
      destruct (init_loop_no_name g ds rs false [] w2) as (w' & Hloop & Hev & _)
  end.
  { eapply Forall2_impl; [done|]. intros d r. by apply record_at_insert_fresh. }
  { done. }
  { simpl. by rewrite lookup_insert_eq. }
  rewrite (bind_raise _ _ _ _ _ Hloop).
  exists w'. split; [done|]. rewrite Hev. simpl.
  apply Forall2_length in Hrs.
  destruct ds, rs; simpl in *; try done.
  by rewrite app_nil_r.
Qed.

Lemma init_missing_name_raises_witness :
  ∃ w', example_init "single" nameless_world = (Raise (KeyError "name"), w')
        ∧ events w' = [].
Proof.
  apply (init_missing_name_raises (λ s, s) remove_dups example_app 4%positive
           "Select" "single" nameless_world
           [IRef 1%positive] [<["group" := PStr "x"]> ∅]).
  - split; [reflexivity|]. constructor; [|constructor]. by exists 1%positive.
  - apply Exists_cons_hd. reflexivity.
Defined.

(** C3: in single selection mode, [get_selected] returns the record at index
    [i] of the current Filtered View when row [i] is the current row, and an
    empty result (a new empty list) when no row is current (row -1). *)
Theorem get_selected_single self w dr view :
  selection_mode self = "single" →
  data_refined self = Some dr →
  heap w !! dr = Some (OList view) →
  (∀ (i : nat) x,
     lv_current (listView self) = Z.of_nat i → view !! i = Some x →
     get_selected self w = (Ok x, w))
  ∧ (lv_current (listView self) = -1 →
     ∃ l, heap w !! l = None
          ∧ get_selected self w
            = (Ok (IRef l), set_heap (<[l := OList []]> (heap w)) w)).
Proof.
  intros Hmode Hdr Hview. split.
  - intros i x Hcur Hi. by eapply single_selection_run.
  - intros Hcur. by apply single_selection_none.
Qed.

Lemma get_selected_single_witness :
  ∃ self w,
    example_init "single" abc_world = (Ok self, w)
    ∧ get_selected (user_select 1 [1] self) w = (Ok (IRef 2%positive), w)
    ∧ ∃ l, get_selected self w = (Ok (IRef l), set_heap (<[l := OList []]> (heap w)) w).
Proof.
  eexists _, _. split; [vm_compute; reflexivity|].
  match goal with
  | |- get_selected (user_select _ _ ?self) ?w = _ ∧ _ =>
      pose proof (get_selected_single (user_select 1 [1] self) w 7%positive
                    [IRef 1%positive; IRef 2%positive; IRef 3%positive]
                    eq_refl eq_refl eq_refl) as [Hrow _];
      pose proof (get_selected_single self w 7%positive
                    [IRef 1%positive; IRef 2%positive; IRef 3%positive]
                    eq_refl eq_refl eq_refl) as [_ Hnone]
  end.
  split.
  - apply (Hrow 1%nat); reflexivity.
  - destruct (Hnone eq_refl) as (l & _ & Hl). by exists l.
Defined.

(** C4: in multiple selection mode, [get_selected] returns a list with the
    records at the selected rows, in the order in which the view reports the
    rows, one entry per selected row (no duplicates when the view has none),
    and every entry is an element of the current Filtered View. *)
Theorem get_selected_multiple self w dr view (rows : list nat) :
  selection_mode self ≠ "single" →
  data_refined self = Some dr →
  heap w !! dr = Some (OList view) →
  lv_selected (listView self) = Z.of_nat <$> rows →
  Forall (λ row, (row < length view)%nat) rows →
  NoDup rows →
  ∃ l xs,
    get_selected self w = (Ok (IRef l), set_heap (<[l := OList xs]> (heap w)) w)
    ∧ heap w !! l = None
    ∧ Forall2 (λ (row : nat) x, view !! row = Some x) rows xs
    ∧ (∀ x, x ∈ xs → x ∈ view)
    ∧ (NoDup view → NoDup xs).
Proof.
  intros Hmode Hdr Hview Hsel Hrows Hnd.
  destruct (rows_resolve view rows Hrows) as [xs Hxs].
  destruct (multiple_selection_run self w dr view rows xs) as (l & Hl & Hrun); [done..|].
  exists l, xs. split_and!; [done..| |].
  - intros x. by eapply resolved_elem_of.
  - by eapply resolved_NoDup.
Qed.

(** The scenario of C4: records A (group x), B (group y), C (group x), the
    filter on "x" and both rows of the view selected give [A, C]. *)
Lemma get_selected_multiple_witness :
  ∃ self w l,
    (let! self := example_init "multiple" in
     on_currentIndexChanged (λ s, s) 2 self) abc_world = (Ok self, w)
    ∧ currentText (comboBox self) = "x"
    ∧ get_selected (user_select 1 [0; 1] self) w
      = (Ok (IRef l),
         set_heap (<[l := OList [IRef 1%positive; IRef 3%positive]]> (heap w)) w).
Proof.
  eexists _, _.
  match goal with
  | |- ∃ l, ?run = (Ok ?self, ?w) ∧ _ =>
      assert (run = (Ok self, w)) as Hrun by (vm_compute; reflexivity);
      destruct (get_selected_multiple (user_select 1 [0; 1] self) w 9%positive
                  [IRef 1%positive; IRef 3%positive] [0; 1]%nat)
        as (l & xs & Hsel & _ & Hxs & _)
  end.
  - vm_compute. congruence.
  - reflexivity.
  - reflexivity.
  - reflexivity.
  - repeat constructor.
  - apply (bool_decide_unpack _). by vm_compute.
  - exists l. split; [exact Hrun|]. split; [reflexivity|].
    apply Forall2_cons_inv_l in Hxs as (x1 & xs1 & [= <-] & Hxs & ->).
    apply Forall2_cons_inv_l in Hxs as (x2 & xs2 & [= <-] & Hxs & ->).
    apply Forall2_nil_inv_l in Hxs as ->.
    exact Hsel.
Defined.

(** C5: over well-formed records, construction succeeds; when some record
    carries a "group", the Group Set is "All" followed by the distinct group
    values, each once, and the group filter is enabled and has exactly these
    entries; when no record carries a "group", the Group Set is empty, the
    filter stays disabled and empty, and the view shows all records. *)
Theorem group_set_built tr list_of_set app_ data_list title mode w ds rs :
  record_set (heap w) data_list ds rs →
  Forall wf_record rs →
  set_enumeration list_of_set →
  tr "All" = "All" →
  ∃ self w',
    DialogSelectItems_init tr list_of_set app_ data_list title mode w = (Ok self, w')
    ∧ (Exists (λ r : gmap string PyVal, is_Some (r !! "group")) rs →
       ∃ elems,
         heap w' !! groups self = Some (OList (IVal (PStr "All") :: elems))
         ∧ NoDup elems
         ∧ (∀ x, x ∈ elems ↔ x ∈ group_values rs)
         ∧ cb_enabled (comboBox self) = true
         ∧ (λ s, IVal (PStr s)) <$> cb_items (comboBox self)
           = IVal (PStr "All") :: elems)
    ∧ (Forall (λ r : gmap string PyVal, r !! "group" = None) rs →
       heap w' !! groups self = Some (OList [])
       ∧ cb_enabled (comboBox self) = false
       ∧ cb_items (comboBox self) = []
       ∧ ∃ dr, data_refined self = Some dr ∧ heap w' !! dr = Some (OList ds)).
Proof.
  intros Hdata Hwf Hset HAll.
  destruct (init_run tr list_of_set app_ data_list title mode w ds rs)
    as (self & dr & w' & Hrun & _ & _ & Hdr & _ & _ & _ & Hen & Hitems & Hgroups
        & Hview & _); [done.. | intros xs x Hx; by apply (Hset xs) | done |].
  exists self, w'. split; [done|].
  unfold group_entries in *. split.
  - intros Hex%group_values_Exists.
    rewrite (bool_decide_eq_false_2 _ Hex) in *.
    exists (list_of_set (group_values rs)).
    rewrite HAll in Hitems, Hgroups.
    split_and!; [done | apply Hset | apply Hset | done |].
    rewrite Hitems. apply texts_of_strs.
    constructor; [by eexists|].
    apply Forall_forall. intros x Hx. apply (Hset (group_values rs)) in Hx.
    revert x Hx. by apply Forall_forall, group_values_strs.
  - intros Hnone%group_values_nil.
    rewrite (bool_decide_eq_true_2 _ Hnone) in *. rewrite Hitems.
    split_and!; [done..|]. by exists dr.
Qed.

Lemma group_set_built_witness :
  ∃ self w',
    example_init "multiple" abc_world = (Ok self, w')
    ∧ ∃ elems,
        heap w' !! groups self = Some (OList (IVal (PStr "All") :: elems))
        ∧ elems ≡ₚ [IVal (PStr "x"); IVal (PStr "y")]
        ∧ cb_enabled (comboBox self) = true.
Proof.
  destruct (group_set_built (λ s, s) remove_dups example_app 4%positive "Select"
              "multiple" abc_world
              [IRef 1%positive; IRef 2%positive; IRef 3%positive]
              [<["name" := PStr "A"]> (<["group" := PStr "x"]> ∅);
               <["name" := PStr "B"]> (<["group" := PStr "y"]> ∅);
               <["name" := PStr "C"]> (<["group" := PStr "x"]> ∅)])
    as (self & w' & Hrun & Hgroups & _).
  - split; [reflexivity|].
    repeat constructor; [by exists 1%positive | by exists 2%positive | by exists 3%positive].
  - repeat constructor; try (by eexists); intros v [= <-]; by eexists.
  - apply remove_dups_enumeration.
  - reflexivity.
  - exists self, w'. split; [exact Hrun|].
    destruct Hgroups as (elems & Hheap & Hnd & Helems & Hen & _).
    { apply Exists_cons_hd. by eexists. }
    exists elems. split; [exact Hheap|]. split; [|exact Hen].
    apply NoDup_Permutation; [done | by apply (bool_decide_unpack _) |].
    intros x. rewrite Helems. vm_compute group_values.
    rewrite !elem_of_cons, !elem_of_nil. tauto.
Defined.

(** C6: construction, the filter by group and [get_selected] leave every
    object that existed before unchanged, the caller's list and the records
    in it included; the view that [fill_list] builds is a list object that
    did not exist before (a shallow copy or a newly built list). *)
Theorem caller_data_unchanged tr list_of_set app_ data_list title mode self w l o :
  heap w !! l = Some o →
  heap (DialogSelectItems_init tr list_of_set app_ data_list title mode w).2 !! l = Some o
  ∧ heap (fill_list tr self w).2 !! l = Some o
  ∧ heap (get_selected self w).2 !! l = Some o
  ∧ ∀ self' w',
      fill_list tr self w = (Ok self', w') →
      ∃ dr, data_refined self' = Some dr ∧ heap w !! dr = None.
Proof.
  intros Hl. split_and!.
  - eapply lookup_weaken; [done|].
    by apply (preserves_extends_init tr list_of_set (heap w)), extends_refl.
  - eapply lookup_weaken; [done|].
    by apply (preserves_extends_fill_list tr (heap w)), extends_refl.
  - eapply lookup_weaken; [done|].
    by apply (preserves_extends_get_selected (heap w)), extends_refl.
  - intros self' w'. apply fill_list_new_view.
Qed.

Lemma caller_data_unchanged_witness :
  let caller_list := OList [IRef 1%positive; IRef 2%positive; IRef 3%positive] in
  heap abc_opened !! 4%positive = Some caller_list
  ∧ heap (example_init "multiple" abc_opened).2 !! 4%positive = Some caller_list
  ∧ heap (fill_list (λ s, s) abc_dialog abc_opened).2 !! 4%positive = Some caller_list
  ∧ heap (get_selected abc_dialog abc_opened).2 !! 4%positive = Some caller_list.
Proof.
  intros caller_list.
  assert (heap abc_opened !! 4%positive = Some caller_list) as Hl
    by (vm_compute; reflexivity).
  split; [exact Hl|].
  destruct (caller_data_unchanged (λ s, s) remove_dups example_app 4%positive
              "Select" "multiple" abc_dialog abc_opened 4%positive caller_list Hl)
    as (Hinit & Hfill & Hsel & _).
  exact (conj Hinit (conj Hfill Hsel)).
Defined.

(** C7: the list adapter reports as many rows as the snapshot it wraps has
    elements; for every valid row, the user role answers the record object
    itself and the display role the record's "name". *)
Theorem ListModel_contract (self : ListModel) w view :
  heap w !! lm_list self = Some (OList view) →
  ListModel_rowCount self w = (Ok (Z.of_nat (length view)), w)
  ∧ ∀ (row : nat) d,
      view !! row = Some d →
      ListModel_data self (Z.of_nat row) UserRole w = (Ok (PyObject d), w)
      ∧ ∀ r name,
          record_at (heap w) d r → r !! "name" = Some name →
          ListModel_data self (Z.of_nat row) DisplayRole w = (Ok (QVariant name), w).
Proof.
  intros Hview. split; [by apply py_len_run|].
  intros row d Hd. split.
  - unfold ListModel_data. by erewrite bind_ok by by eapply list_getitem_run.
  - intros r name (l & -> & Hl) Hname. unfold ListModel_data.
    erewrite bind_ok by by eapply list_getitem_run.
    erewrite bind_ok; [done|]. unfold getitem. by rewrite Hl, Hname.
Qed.

Lemma ListModel_contract_witness :
  let self := mkListModel 4%positive in
  ListModel_rowCount self abc_world = (Ok 3, abc_world)
  ∧ ListModel_data self 2 UserRole abc_world = (Ok (PyObject (IRef 3%positive)), abc_world)
  ∧ ListModel_data self 2 DisplayRole abc_world = (Ok (QVariant (PStr "C")), abc_world).
Proof.
  intros self.
  destruct (ListModel_contract self abc_world
              [IRef 1%positive; IRef 2%positive; IRef 3%positive] eq_refl)
    as [Hcount Hdata].
  destruct (Hdata 2%nat (IRef 3%positive) eq_refl) as [Huser Hdisplay].
  split; [exact Hcount|]. split; [exact Huser|].
  apply (Hdisplay (<["name" := PStr "C"]> (<["group" := PStr "x"]> ∅)));
    [by exists 3%positive | reflexivity].
Defined.

(** C8: every construction of the dialog, and of the list adapter, leaves
    [exception_handler] installed as the process-wide hook, whatever was
    installed before and whether or not construction succeeds; an exception
    nobody catches afterwards is printed, logged with the text of the whole
    traceback and shown in a critical message box. *)
Theorem excepthook_installed tr list_of_set app_ data_list title mode l w :
  let opened := (DialogSelectItems_init tr list_of_set app_ data_list title mode w).2 in
  excepthook opened = exception_handler tr
  ∧ excepthook (ListModel_init tr l w).2 = exception_handler tr
  ∧ ∀ exception_type value tb,
      ∃ text,
        events (uncaught exception_type value tb opened).2
        = events opened ++ [ EvPrint text;
                             EvLoggerError (tr "Uncaught exception: " +:+ text);
                             EvCritical (tr "Uncaught Exception") text ]
        ∧ occurs_in exception_type text
        ∧ occurs_in value text
        ∧ ∀ frame, frame ∈ tb → occurs_in frame text.
Proof.
  intros opened.
  assert (excepthook opened = exception_handler tr) as Hhook
    by apply init_installs.
  split_and!; [done..|].
  intros exception_type value tb. eexists. split.
  { unfold uncaught. simpl. rewrite Hhook. simpl. reflexivity. }
  split_and!.
  - do 4 apply occurs_in_append_l. apply occurs_in_append_r, occurs_in_refl.
  - do 6 apply occurs_in_append_l. apply occurs_in_refl.
  - intros frame Hframe.
    do 2 apply occurs_in_append_l. by apply occurs_in_append_r, occurs_in_join.
Qed.

Lemma excepthook_installed_witness :
  excepthook (example_init "single" abc_world).2 = exception_handler (λ s, s)
  ∧ excepthook (ListModel_init (λ s, s) 4%positive abc_world).2 = exception_handler (λ s, s)
  ∧ ∃ text, EvLoggerError ("Uncaught exception: " +:+ text)
              ∈ events (uncaught "KeyError" "'group'" ["frame 1"; "frame 2"]
                          (example_init "single" abc_world).2).2
            ∧ occurs_in "frame 2" text.
Proof.
  destruct (excepthook_installed (λ s, s) remove_dups example_app 4%positive
              "Select" "single" 4%positive abc_world)
    as (Hinit & Hmodel & Hhandler).
  split; [exact Hinit|]. split; [exact Hmodel|].
  destruct (Hhandler "KeyError" "'group'" ["frame 1"; "frame 2"])
    as (text & Hev & _ & _ & Hframes).
  exists text. split.
  - unfold example_init. rewrite Hev. apply elem_of_app. right.
    apply elem_of_cons. right. apply elem_of_cons. by left.
  - apply Hframes. apply elem_of_cons. right. apply elem_of_cons. by left.
Defined.

(** C9: exactly the string "single" selects single mode; with any other
    mode string the list view uses extended selection and [get_selected]
    returns a new list with the records at the selected rows, while with
    "single" the view uses single selection and [get_selected] returns the
    record at the current row itself. *)
Theorem selection_mode_dispatch tr list_of_set app_ data_list title mode w ds rs :
  record_set (heap w) data_list ds rs →
  Forall wf_record rs →
  set_enumeration list_of_set →
  tr "All" = "All" →
  ∃ self w',
    DialogSelectItems_init tr list_of_set app_ data_list title mode w = (Ok self, w')
    ∧ (mode = "single" →
       lv_mode (listView self) = SingleSelection
       ∧ ∀ (i : nat) x,
           ds !! i = Some x →
           get_selected (user_select (Z.of_nat i) [Z.of_nat i] self) w' = (Ok x, w'))
    ∧ (mode ≠ "single" →
       lv_mode (listView self) = ExtendedSelection
       ∧ ∀ current (rows : list nat),
           Forall (λ row, (row < length ds)%nat) rows →
           ∃ l xs,
             get_selected (user_select current (Z.of_nat <$> rows) self) w'
             = (Ok (IRef l), set_heap (<[l := OList xs]> (heap w')) w')
             ∧ heap w' !! l = None
             ∧ Forall2 (λ (row : nat) x, ds !! row = Some x) rows xs).
Proof.
  intros Hdata Hwf Hset HAll.
  destruct (init_run tr list_of_set app_ data_list title mode w ds rs)
    as (self & dr & w' & Hrun & _ & Hmode & Hdr & _ & _ & Hlv & _ & _ & _
        & Hview & _); [done.. | intros xs x Hx; by apply (Hset xs) | done |].
  exists self, w'. split; [done|]. split.
  - intros ->. rewrite Hlv. split; [done|].
    intros i x Hi. by eapply single_selection_run.
  - intros Hne. rewrite Hlv, (bool_decide_eq_false_2 _ Hne). split; [done|].
    intros current rows Hrows.
    destruct (rows_resolve ds rows Hrows) as [xs Hxs].
    destruct (multiple_selection_run
                (user_select current (Z.of_nat <$> rows) self) w' dr ds rows xs)
      as (l & Hl & Hsel); [by rewrite <-Hmode in Hne | done..|].
    by exists l, xs.
Qed.

Lemma selection_mode_dispatch_witness :
  ∃ self w' l,
    example_init "Single" abc_world = (Ok self, w')
    ∧ lv_mode (listView self) = ExtendedSelection
    ∧ get_selected (user_select 2 [2; 0] self) w'
      = (Ok (IRef l),
         set_heap (<[l := OList [IRef 3%positive; IRef 1%positive]]> (heap w')) w').
Proof.
  destruct (selection_mode_dispatch (λ s, s) remove_dups example_app 4%positive
              "Select" "Single" abc_world
              [IRef 1%positive; IRef 2%positive; IRef 3%positive]
              [<["name" := PStr "A"]> (<["group" := PStr "x"]> ∅);
               <["name" := PStr "B"]> (<["group" := PStr "y"]> ∅);
               <["name" := PStr "C"]> (<["group" := PStr "x"]> ∅)])
    as (self & w' & Hrun & _ & Hmulti).
  - split; [reflexivity|].
    repeat constructor; [by exists 1%positive | by exists 2%positive | by exists 3%positive].
  - repeat constructor; try (by eexists); intros v [= <-]; by eexists.
  - apply remove_dups_enumeration.
  - reflexivity.
  - destruct Hmulti as [Hlv Hsel]; [done|].
    destruct (Hsel 2 [2; 0]%nat) as (l & xs & Hget & _ & Hxs).
    { repeat constructor; simpl; lia. }
    exists self, w', l. split; [exact Hrun|]. split; [exact Hlv|].
    apply Forall2_cons_inv_l in Hxs as (x1 & xs1 & [= <-] & Hxs & ->).
    apply Forall2_cons_inv_l in Hxs as (x2 & xs2 & [= <-] & Hxs & ->).
    apply Forall2_nil_inv_l in Hxs as ->.
    exact Hget.
Defined.

(** C10: when every record has a "name" key, the warning about missing names
    is shown exactly when some name is falsy (the empty string, [None]), and
    then once, however many such records there are; it comes after the
    warning about an empty list, which only an empty list gets. *)
Theorem no_name_warning_on_falsy_name tr list_of_set app_ data_list title mode w ds rs :
  record_set (heap w) data_list ds rs →
  Forall (λ r : gmap string PyVal, is_Some (r !! "name")) rs →
  events (DialogSelectItems_init tr list_of_set app_ data_list title mode w).2
  = events w
    ++ (if bool_decide (rs = []) then [warning_empty tr] else [])
    ++ (if existsb falsy_name rs then [warning_no_name tr] else []).
Proof.
  intros [Hdata Hrs] Hnames.
  init_prefix w Hdata g Hg.
  erewrite bind_ok; cycle 1.
  { apply (init_loop_run g ds rs false []); simpl.
    - eapply Forall2_impl; [done|]. intros d r. by apply record_at_insert_fresh.
    - done.
    - by rewrite lookup_insert_eq. }
  erewrite bind_ok by apply emit_if_run. simpl.
  apply (preserves_apply (events_are (events w ++ init_warnings tr rs))).
  - apply (preserves_blind_groups tr list_of_set _ (heap_blind_events_are _)).
    intros [g' cb].
    by apply preserves_blind_fill_list; [apply heap_blind_events_are|].
  - unfold events_are, init_warnings. simpl. rewrite <-app_assoc. do 2 f_equal.
    apply Forall2_length in Hrs. by destruct ds, rs.
Qed.

Lemma no_name_warning_on_falsy_name_witness :
  events (example_init "single" falsy_world).2 = [warning_no_name (λ s, s)].
Proof.
  unfold example_init.
  rewrite (no_name_warning_on_falsy_name (λ s, s) remove_dups example_app 4%positive
             "Select" "single" falsy_world
             [IRef 1%positive; IRef 2%positive; IRef 3%positive]
             [<["name" := PStr ""]> ∅; <["name" := PNone]> ∅; <["name" := PStr "C"]> ∅]).
  - reflexivity.
  - split; [reflexivity|].
    repeat constructor; [by exists 1%positive | by exists 2%positive | by exists 3%positive].
  - repeat constructor; by eexists.
Defined.

(** * Further properties of the code *)

(** ** [ListModel.data] at the edges *)

Lemma py_index_beyond xs i : Z.of_nat (length xs) ≤ i → py_index xs i = Raise IndexError.
Proof.
  intros Hi. unfold py_index.
  destruct (Z.ltb_spec i 0) as [?|_]; [lia|].
  destruct (Z.leb_spec 0 i) as [_|?]; [|lia].
  destruct (Z.ltb_spec i (Z.of_nat (length xs))) as [?|_]; [lia | done].
Qed.

Lemma py_index_before xs i : i < - Z.of_nat (length xs) → py_index xs i = Raise IndexError.
Proof.
  intros Hi. unfold py_index.
  destruct (Z.ltb_spec i 0) as [_|?]; [|lia].
  destruct (Z.leb_spec 0 (i + Z.of_nat (length xs))) as [?|_]; [lia | done].
Qed.

Lemma py_index_from_end xs (k : nat) x :
  xs !! k = Some x → py_index xs (Z.of_nat k - Z.of_nat (length xs)) = Ok x.
Proof.
  intros Hk. pose proof (lookup_lt_Some _ _ _ Hk) as Hlt.
  unfold py_index.
  destruct (Z.ltb_spec (Z.of_nat k - Z.of_nat (length xs)) 0) as [_|?]; [|lia].
  replace (Z.of_nat k - Z.of_nat (length xs) + Z.of_nat (length xs)) with (Z.of_nat k) by lia.
  destruct (Z.leb_spec 0 (Z.of_nat k)) as [_|?]; [|lia].
  destruct (Z.ltb_spec (Z.of_nat k) (Z.of_nat (length xs))) as [_|?]; [|lia].
  simpl. by rewrite Nat2Z.id, Hk.
Qed.

Lemma list_getitem_raise l i e xs w :
  heap w !! l = Some (OList xs) → py_index xs i = Raise e →
  list_getitem l i w = (Raise e, w).
Proof. unfold list_getitem. by intros -> ->. Qed.

Lemma list_getitem_ok l i x xs w :
  heap w !! l = Some (OList xs) → py_index xs i = Ok x →
  list_getitem l i w = (Ok x, w).
Proof. unfold list_getitem. by intros -> ->. Qed.

(** X4: for the display and the user role, a row at or past the end of the
    list, or before minus its length, is an [IndexError]; a negative row in
    between counts from the end, so the row -1 of an invalid index answers
    the last record. *)
Theorem ListModel_data_row_bounds (self : ListModel) w view :
  heap w !! lm_list self = Some (OList view) →
  (∀ row, Z.of_nat (length view) ≤ row ∨ row < - Z.of_nat (length view) →
     ListModel_data self row DisplayRole w = (Raise IndexError, w)
     ∧ ListModel_data self row UserRole w = (Raise IndexError, w))
  ∧ (∀ (k : nat) d,
       view !! k = Some d →
       ListModel_data self (Z.of_nat k - Z.of_nat (length view)) UserRole w
       = (Ok (PyObject d), w)).
Proof.
  intros Hview. split.
  - intros row Hrow.
    assert (py_index view row = Raise IndexError) as Hidx
      by (destruct Hrow; [by apply py_index_beyond | by apply py_index_before]).
    unfold ListModel_data.
    by rewrite !(bind_raise _ _ _ _ _ (list_getitem_raise _ _ _ _ _ Hview Hidx)).
  - intros k d Hk. unfold ListModel_data.
    by rewrite (bind_ok _ _ _ _ _
                  (list_getitem_ok _ _ _ _ _ Hview (py_index_from_end _ _ _ Hk))).
Qed.

Lemma ListModel_data_row_bounds_witness :
  let self := mkListModel 4%positive in
  ListModel_data self 3 DisplayRole abc_world = (Raise IndexError, abc_world)
  ∧ ListModel_data self (-4) UserRole abc_world = (Raise IndexError, abc_world)
  ∧ ListModel_data self (-1) UserRole abc_world = (Ok (PyObject (IRef 3%positive)), abc_world).
Proof.
  intros self.
  destruct (ListModel_data_row_bounds self abc_world
              [IRef 1%positive; IRef 2%positive; IRef 3%positive] eq_refl)
    as [Hout Hneg].
  split; [apply (Hout 3); left; simpl; lia|].
  split; [apply (Hout (-4)); right; simpl; lia|].
  apply (Hneg 2%nat (IRef 3%positive) eq_refl).
Defined.

(** X5: a record without a "name" still is a row of the adapter: the user
    role answers the record, the display role raises [KeyError]; any other
    role answers the invalid [QVariant] for every row and never reads the
    list. *)
Theorem ListModel_data_nameless (self : ListModel) w view (row : nat) d r :
  heap w !! lm_list self = Some (OList view) →
  view !! row = Some d →
  record_at (heap w) d r →
  r !! "name" = None →
  ListModel_data self (Z.of_nat row) DisplayRole w = (Raise (KeyError "name"), w)
  ∧ ListModel_data self (Z.of_nat row) UserRole w = (Ok (PyObject d), w)
  ∧ ∀ n other (w0 : World),
      ListModel_data self other (OtherRole n) w0 = (Ok QVariantInvalid, w0).
Proof.
  intros Hview Hrow (l & -> & Hl) Hname. unfold ListModel_data. split_and!.
  - erewrite bind_ok by by eapply list_getitem_run.
    erewrite bind_raise; [done|]. unfold getitem. by rewrite Hl, Hname.
  - by erewrite bind_ok by by eapply list_getitem_run.
  - done.
Qed.

Lemma ListModel_data_nameless_witness :
  let self := mkListModel 4%positive in
  ListModel_data self 0 DisplayRole nameless_world = (Raise (KeyError "name"), nameless_world)
  ∧ ListModel_data self 0 UserRole nameless_world
    = (Ok (PyObject (IRef 1%positive)), nameless_world).
Proof.
  intros self.
  destruct (ListModel_data_nameless self nameless_world [IRef 1%positive] 0
              (IRef 1%positive) (<["group" := PStr "x"]> ∅))
    as (Hdisplay & Huser & _); [reflexivity | reflexivity | by exists 1%positive | reflexivity |].
  exact (conj Hdisplay Huser).
Defined.

(** ** The filter by group *)

Lemma item_field_weaken (h h' : gmap loc Obj) d key v :
  h ⊆ h' → item_field h d key = Some v → item_field h' d key = Some v.
Proof.
  intros Hsub. destruct d as [?|l]; [done|]. simpl.
  destruct (h !! l) as [o|] eqn:Hl; [|done].
  by rewrite (lookup_weaken _ _ _ _ Hl Hsub).
Qed.

Lemma have_group_weaken (h h' : gmap loc Obj) ds :
  h ⊆ h' →
  Forall (λ d, is_Some (item_field h d "group")) ds →
  Forall (λ d, is_Some (item_field h' d "group")) ds.
Proof.
  intros Hsub Hds. eapply Forall_impl; [done|]. intros d [v Hv]. exists v.
  by eapply item_field_weaken.
Qed.

Lemma group_view_weaken (h h' : gmap loc Obj) grouper ds :
  h ⊆ h' →
  Forall (λ d, is_Some (item_field h d "group")) ds →
  group_view h' grouper ds = group_view h grouper ds.
Proof.
  intros Hsub. unfold group_view.
  induction 1 as [|d ds [v Hv] _ IH]; [done|].
  rewrite !filter_cons, IH, Hv, (item_field_weaken h h' d "group" v Hsub Hv).
  done.
Qed.

Lemma records_have_group (h : gmap loc Obj) ds rs :
  Forall2 (record_at h) ds rs →
  Forall (λ r : gmap string PyVal, is_Some (r !! "group")) rs →
  Forall (λ d, is_Some (item_field h d "group")) ds.
Proof.
  induction 1 as [|d r ds rs Hd _ IH]; [constructor|].
  intros [Hr Hrs]%Forall_cons. constructor; [|auto].
  by rewrite (record_at_item_field _ _ _ _ Hd).
Qed.

Lemma current_view_set_view self w dr m view :
  heap w !! dr = Some (OList view) → current_view (set_view dr m self) w = Some view.
Proof. unfold current_view. simpl. by intros ->. Qed.

(** X1: when no group exists, when the filter shows "All", or when every
    element of the list is a record with a "group", [fill_list] returns; the
    view is a new list with all elements in the first two cases and with
    exactly the elements of the chosen group, in list order, in the third;
    no event is shown and the filter, the mode and the data stay as they
    are. *)
Theorem fill_list_view tr self w ds gs :
  heap w !! data self = Some (OList ds) →
  heap w !! groups self = Some (OList gs) →
  (gs = [] ∨ currentText (comboBox self) = "All"
   ∨ Forall (λ d, is_Some (item_field (heap w) d "group")) ds) →
  ∃ self' w' view,
    fill_list tr self w = (Ok self', w')
    ∧ current_view self' w' = Some view
    ∧ (gs = [] ∨ currentText (comboBox self) = "All" → view = ds)
    ∧ (gs ≠ [] → currentText (comboBox self) ≠ "All" →
       view = filter (λ d, item_field (heap w) d "group"
                           = Some (PStr (currentText (comboBox self)))) ds)
    ∧ data self' = data self
    ∧ groups self' = groups self
    ∧ selection_mode self' = selection_mode self
    ∧ comboBox self' = comboBox self
    ∧ option_map lm_list (lv_model (listView self')) = data_refined self'
    ∧ events w' = events w.
Proof.
  intros Hdata Hgroups Hcase.
  destruct (fill_list_run tr self w ds gs Hdata Hgroups Hcase)
    as (dr & w' & Hrun & Hdr & Hfresh & Hsub & Hhook & Hev).
  eexists _, w', _. split; [exact Hrun|].
  split; [by apply current_view_set_view|].
  unfold filtered_view. split_and!; [| | done..].
  - intros [->|Hall]; [done|].
    by rewrite (bool_decide_eq_true_2 _ Hall), orb_true_r.
  - intros Hgs Hne.
    by rewrite (bool_decide_eq_false_2 _ Hgs), (bool_decide_eq_false_2 _ Hne).
Qed.

Lemma fill_list_view_witness :
  ∃ self' w',
    fill_list (λ s, s) abc_dialog abc_opened = (Ok self', w')
    ∧ current_view self' w' = Some [IRef 1%positive; IRef 3%positive].
Proof.
  destruct (fill_list_view (λ s, s) abc_dialog abc_opened
              [IRef 1%positive; IRef 2%positive; IRef 3%positive]
              [IVal (PStr "All"); IVal (PStr "y"); IVal (PStr "x")])
    as (self' & w' & view & Hrun & Hview & _ & Hgroup & _).
  - vm_compute. reflexivity.
  - vm_compute. reflexivity.
  - right; right. repeat constructor; vm_compute; by eexists.
  - exists self', w'. split; [exact Hrun|].
    rewrite Hview, Hgroup; [| done | by vm_compute].
    vm_compute. reflexivity.
Defined.

(** X6: neither the filter by group nor [get_selected] shows a message,
    prints or logs, whatever the dialog and whether they return or raise;
    [get_selected] leaves the exception hook as it is, too. *)
Theorem filter_and_selection_are_silent tr self w :
  events (fill_list tr self w).2 = events w
  ∧ events (get_selected self w).2 = events w
  ∧ excepthook (get_selected self w).2 = excepthook w.
Proof.
  split_and!.
  - apply (preserves_apply (events_are (events w))); [|done].
    by apply preserves_blind_fill_list; [apply heap_blind_events_are|].
  - apply (preserves_apply (events_are (events w))); [|done].
    apply preserves_blind_get_selected, heap_blind_events_are.
  - apply (preserves_apply (hook_is (excepthook w))); [|done].
    apply preserves_blind_get_selected, heap_blind_hook_is.
Qed.

(** X2: filters do not compound.  When every element of the list is a
    record with a "group", picking entry [i] of the filter and then entry
    [j] ends with the view that picking [j] right away gives: each
    [fill_list] filters the caller's list, never the view before, so going
    back to "All" shows everything again. *)
Theorem fill_list_refilter tr self w ds gs i j :
  heap w !! data self = Some (OList ds) →
  heap w !! groups self = Some (OList gs) →
  Forall (λ d, is_Some (item_field (heap w) d "group")) ds →
  is_Some (view_after (on_currentIndexChanged tr j self w))
  ∧ view_after ((let! self1 := on_currentIndexChanged tr i self in
                 on_currentIndexChanged tr j self1) w)
    = view_after (on_currentIndexChanged tr j self w).
Proof.
  intros Hdata Hgroups Hds. unfold on_currentIndexChanged.
  destruct (fill_list_run tr (user_pick_group j self) w ds gs)
    as (drj & wj & Hrunj & Hdrj & _); [done.. | by right; right |].
  destruct (fill_list_run tr (user_pick_group i self) w ds gs)
    as (dr1 & w1 & Hrun1 & Hdr1 & _ & Hsub1 & _); [done.. | by right; right |].
  destruct (fill_list_run tr
              (user_pick_group j (set_view dr1 (mkListModel dr1) (user_pick_group i self)))
              w1 ds gs)
    as (dr2 & w2 & Hrun2 & Hdr2 & _).
  { simpl. by eapply lookup_weaken. }
  { simpl. by eapply lookup_weaken. }
  { right; right. by eapply have_group_weaken. }
  rewrite Hrunj, (bind_ok _ _ _ _ _ Hrun1), Hrun2. simpl.
  rewrite !(current_view_set_view _ _ _ _ _ Hdrj).
  split; [by eexists|].
  erewrite current_view_set_view by done.
  f_equal. simpl. unfold filtered_view. case_match; [done|].
  by apply group_view_weaken.
Qed.

Lemma fill_list_refilter_witness :
  view_after ((let! self1 := on_currentIndexChanged (λ s, s) 1 abc_dialog in
               on_currentIndexChanged (λ s, s) 0 self1) abc_opened)
  = Some [IRef 1%positive; IRef 2%positive; IRef 3%positive].
Proof.
  destruct (fill_list_refilter (λ s, s) abc_dialog abc_opened
              [IRef 1%positive; IRef 2%positive; IRef 3%positive]
              [IVal (PStr "All"); IVal (PStr "y"); IVal (PStr "x")] 1 0)
    as [_ Hsame].
  - vm_compute. reflexivity.
  - vm_compute. reflexivity.
  - repeat constructor; vm_compute; by eexists.
  - rewrite Hsame. vm_compute. reflexivity.
Defined.

(** ** Construction, in general *)

(** Construction over records that all have a name: with groups, the
    distinct groups have to be strings, and either the label of "All" is
    not translated or every record carries a group. *)
Lemma init_run_gen tr list_of_set app_ data_list title mode w ds rs :
  record_set (heap w) data_list ds rs →
  Forall (λ r : gmap string PyVal, is_Some (r !! "name")) rs →
  (group_values rs ≠ [] → Forall is_str (list_of_set (group_values rs))) →
  (group_values rs = [] ∨ tr "All" = "All"
   ∨ Forall (λ r : gmap string PyVal, is_Some (r !! "group")) rs) →
  ∃ self dr w',
    DialogSelectItems_init tr list_of_set app_ data_list title mode w = (Ok self, w')
    ∧ data self = data_list
    ∧ selection_mode self = mode
    ∧ data_refined self = Some dr
    ∧ listView self
      = mkListView (if bool_decide (mode = "single")
                    then SingleSelection else ExtendedSelection)
                   (Some (mkListModel dr)) (-1) []
    ∧ comboBox self
      = (if bool_decide (group_values rs = []) then setupUi_comboBox
         else mkComboBox true (tr "All" :: texts_of (list_of_set (group_values rs))) 0)
    ∧ heap w' !! groups self
      = Some (OList (group_entries tr list_of_set (group_values rs)))
    ∧ heap w' !! dr
      = Some (OList (if bool_decide (group_values rs = []) || bool_decide (tr "All" = "All")
                     then ds else group_view (heap w) (tr "All") ds))
    ∧ heap w !! dr = None
    ∧ heap w ⊆ heap w'
    ∧ events w' = events w ++ init_warnings tr rs.
Proof.
  intros [Hdata Hrs] Hnames Hstrs Hcase.
  init_prefix w Hdata g Hg.
  assert (g ≠ data_list) as Hgd by congruence.
  erewrite bind_ok; cycle 1.
  { apply (init_loop_run g ds rs false []); simpl.
    - eapply Forall2_impl; [done|]. intros d r. by apply record_at_insert_fresh.
    - done.
    - by rewrite lookup_insert_eq. }
  simpl. rewrite insert_insert_eq.
  erewrite bind_ok by apply emit_if_run. simpl.
  erewrite bind_ok by (apply read_list_run; simpl; by rewrite lookup_insert_eq).
  assert ((if Z.of_nat (length ds) =? 0 then [warning_empty tr] else [])
          = if bool_decide (rs = []) then [warning_empty tr] else []) as Hempty.
  { apply Forall2_length in Hrs. destruct ds, rs; simpl in *; try done. }
  unfold group_entries.
  set (w2 := mkWorld _ _ _).
  assert (events w2 = events w ++ init_warnings tr rs) as Hev2.
  { subst w2. simpl. unfold init_warnings. by rewrite <-app_assoc, <-Hempty. }
  assert (heap w2 = <[g := OList (group_values rs)]> (heap w)) as Hheap2 by done.
  assert (heap w ⊆ heap w2) as Hsub2 by (rewrite Hheap2; by apply insert_subseteq).
  clearbody w2.
  destruct (decide (group_values rs = [])) as [Hgs|Hgs].
  - rewrite !(bool_decide_eq_true_2 _ Hgs).
    erewrite bind_ok by done. cbv beta iota.
    set (self := mkDialog _ _ _ _ _ _ _ _ _).
    destruct (fill_list_run tr self w2 ds [])
      as (dr & w' & Hrun & Hdr & Hfresh & Hsub & Hhook & Hev).
    { subst self. simpl. by eapply lookup_weaken. }
    { subst self. simpl. by rewrite Hheap2, lookup_insert_eq, Hgs. }
    { by left. }
    exists (set_view dr (mkListModel dr) self), dr, w'.
    rewrite Hrun, Hev, Hev2. simpl.
    split_and!; try done.
    + by destruct (bool_decide (mode = "single")).
    + eapply lookup_weaken; [|done]. by rewrite Hheap2, lookup_insert_eq, Hgs.
    + by eapply lookup_weaken_None.
    + by etrans.
  - rewrite !(bool_decide_eq_false_2 _ Hgs). specialize (Hstrs Hgs).
    set (gs := group_values rs) in *.
    set (g' := fresh (dom (heap w2))).
    assert (heap w2 !! g' = None) as Hg' by apply not_elem_of_dom, is_fresh.
    erewrite (bind_ok _ _ w2); cycle 1.
    { erewrite bind_ok
        by (unfold py_list_set; subst gs; by rewrite group_values_hashable).
      erewrite bind_ok by done.
      erewrite bind_ok by (apply list_insert_run; simpl; by rewrite lookup_insert_eq).
      erewrite bind_ok by (apply read_list_run; simpl; by rewrite lookup_insert_eq).
      rewrite py_insert_0.
      erewrite bind_ok; [done|].
      unfold addItems. by rewrite as_texts_strs by (constructor; [by eexists|done]). }
    cbv beta iota. simpl. rewrite insert_insert_eq. fold g'.
    set (w3 := set_heap _ _).
    assert (heap w2 ⊆ heap w3) as Hsub3 by (subst w3; by apply insert_subseteq).
    assert (heap w ⊆ heap w3) as Hsub by by etrans.
    set (self := mkDialog _ _ _ _ _ _ _ _ _).
    destruct (fill_list_run tr self w3 ds (IVal (PStr (tr "All")) :: list_of_set gs))
      as (dr & w' & Hrun & Hdr & Hfresh & Hsub' & Hhook & Hev).
    { subst self. simpl. by eapply lookup_weaken. }
    { subst self w3. simpl. by rewrite lookup_insert_eq. }
    { destruct Hcase as [?|[HAll|Hall]]; [done | |].
      - right; left. subst self. simpl. by rewrite HAll.
      - right; right. eapply have_group_weaken; [done|].
        by eapply records_have_group. }
    exists (set_view dr (mkListModel dr) self), dr, w'.
    rewrite Hrun, Hev. simpl.
    split_and!; try done.
    + by destruct (bool_decide (mode = "single")).
    + eapply lookup_weaken; [|done]. subst w3. simpl. by rewrite lookup_insert_eq.
    + rewrite Hdr. unfold filtered_view, currentText. subst self. simpl.
      destruct (bool_decide (tr "All" = "All")) eqn:HAll; [done|]. simpl.
      do 2 f_equal. apply group_view_weaken; [done|].
      destruct Hcase as [?|[HAll'|Hall]]; [done | | by eapply records_have_group].
      by rewrite (bool_decide_eq_true_2 _ HAll') in HAll.
    + by eapply lookup_weaken_None.
    + by etrans.
Qed.

Lemma enumeration_strs list_of_set rs :
  set_enumeration list_of_set → Forall wf_record rs →
  Forall is_str (list_of_set (group_values rs)).
Proof.
  intros Hset Hwf. apply Forall_forall. intros x Hx.
  apply (Hset (group_values rs)) in Hx. revert x Hx.
  by apply Forall_forall, group_values_strs.
Qed.

Lemma wf_records_named rs :
  Forall wf_record rs → Forall (λ r : gmap string PyVal, is_Some (r !! "name")) rs.
Proof. intros Hwf. eapply Forall_impl; [done|]. by intros r [? _]. Qed.

Lemma group_view_none (h : gmap loc Obj) grouper ds rs :
  Forall2 (record_at h) ds rs →
  Forall (λ r : gmap string PyVal, r !! "group" ≠ Some (PStr grouper)) rs →
  group_view h grouper ds = [].
Proof.
  unfold group_view.
  induction 1 as [|d r ds rs Hd _ IH]; [done|].
  intros [Hr Hrs]%Forall_cons.
  rewrite filter_cons_False; [auto|].
  by rewrite (record_at_item_field _ _ _ _ Hd).
Qed.

(** X3: over an empty list, construction shows the warning about the empty
    list and nothing else, and returns a dialog with an empty view, an
    adapter of zero rows and a disabled filter; [get_selected] then returns
    a new empty list, in single as in multiple mode. *)
Theorem init_empty_data tr list_of_set app_ data_list title mode w :
  heap w !! data_list = Some (OList []) →
  ∃ self w',
    DialogSelectItems_init tr list_of_set app_ data_list title mode w = (Ok self, w')
    ∧ events w' = events w ++ [warning_empty tr]
    ∧ current_view self w' = Some []
    ∧ cb_enabled (comboBox self) = false
    ∧ (∀ m, lv_model (listView self) = Some m → ListModel_rowCount m w' = (Ok 0, w'))
    ∧ ∃ l, heap w' !! l = None
           ∧ get_selected self w'
             = (Ok (IRef l), set_heap (<[l := OList []]> (heap w')) w').
Proof.
  intros Hdata.
  destruct (init_run_gen tr list_of_set app_ data_list title mode w [] [])
    as (self & dr & w' & Hrun & _ & Hmode & Hdr & Hlv & Hcb & _ & Hview & _ & _ & Hev);
    [by split | done | done | by left |].
  exists self, w'. simpl in Hview, Hcb.
  split_and!; [done | done | | by rewrite Hcb | |].
  - unfold current_view. by rewrite Hdr, Hview.
  - intros m. rewrite Hlv. intros [= <-]. by apply (py_len_run dr []).
  - destruct (decide (mode = "single")) as [Hsingle|Hmulti].
    + apply single_selection_none; [congruence | by rewrite Hlv].
    + apply (multiple_selection_run self w' dr [] [] []);
        [congruence | done | done | by rewrite Hlv | constructor].
Qed.

Lemma init_empty_data_witness :
  ∃ self w',
    DialogSelectItems_init (λ s, s) remove_dups example_app 4%positive "Select" "single"
      (mkWorld (<[4%positive := OList []]> ∅) quiet_hook [])
    = (Ok self, w')
    ∧ events w' = [warning_empty (λ s, s)]
    ∧ current_view self w' = Some [].
Proof.
  destruct (init_empty_data (λ s, s) remove_dups example_app 4%positive "Select" "single"
              (mkWorld (<[4%positive := OList []]> ∅) quiet_hook []))
    as (self & w' & Hrun & Hev & Hview & _); [reflexivity|].
  by exists self, w'.
Defined.

(** X7: the warning about names is not fatal.  Over well-formed records of
    which some have a falsy name, construction returns, the warning is among
    the events, every record is a row of the view, and the display role
    answers each record's own name, falsy or not. *)
Theorem falsy_names_are_listed tr list_of_set app_ data_list title mode w ds rs :
  record_set (heap w) data_list ds rs →
  Forall wf_record rs →
  set_enumeration list_of_set →
  tr "All" = "All" →
  existsb falsy_name rs = true →
  ∃ self w',
    DialogSelectItems_init tr list_of_set app_ data_list title mode w = (Ok self, w')
    ∧ warning_no_name tr ∈ events w'
    ∧ current_view self w' = Some ds
    ∧ ∀ m (row : nat) d r name,
        lv_model (listView self) = Some m →
        ds !! row = Some d → record_at (heap w) d r → r !! "name" = Some name →
        ListModel_data m (Z.of_nat row) DisplayRole w' = (Ok (QVariant name), w').
Proof.
  intros Hdata Hwf Hset HAll Hfalsy.
  destruct (init_run_gen tr list_of_set app_ data_list title mode w ds rs)
    as (self & dr & w' & Hrun & _ & _ & Hdr & Hlv & _ & _ & Hview & _ & Hsub & Hev);
    [done | by apply wf_records_named | by intros _; apply enumeration_strs
    | by right; left |].
  rewrite (bool_decide_eq_true_2 _ HAll), orb_true_r in Hview.
  exists self, w'. split_and!; [done | | |].
  - rewrite Hev. unfold init_warnings. rewrite Hfalsy.
    apply elem_of_app. right. apply elem_of_app. right. by apply list_elem_of_singleton.
  - unfold current_view. by rewrite Hdr, Hview.
  - intros m row d r name. rewrite Hlv. intros [= <-] Hrow (l & -> & Hl) Hname.
    unfold ListModel_data.
    erewrite bind_ok by by eapply list_getitem_run.
    erewrite bind_ok; [done|]. unfold getitem.
    by rewrite (lookup_weaken _ _ _ _ Hl Hsub), Hname.
Qed.

Lemma falsy_names_are_listed_witness :
  ∃ self w',
    example_init "single" falsy_world = (Ok self, w')
    ∧ current_view self w' = Some [IRef 1%positive; IRef 2%positive; IRef 3%positive]
    ∧ ∀ m, lv_model (listView self) = Some m →
           ListModel_data m 1 DisplayRole w' = (Ok (QVariant PNone), w').
Proof.
  destruct (falsy_names_are_listed (λ s, s) remove_dups example_app 4%positive
              "Select" "single" falsy_world
              [IRef 1%positive; IRef 2%positive; IRef 3%positive]
              [<["name" := PStr ""]> ∅; <["name" := PNone]> ∅; <["name" := PStr "C"]> ∅])
    as (self & w' & Hrun & _ & Hview & Hdisplay).
  - split; [reflexivity|].
    repeat constructor; [by exists 1%positive | by exists 2%positive | by exists 3%positive].
  - repeat constructor; try (intros v Hv; exfalso; by vm_compute in Hv); by eexists.
  - apply remove_dups_enumeration.
  - reflexivity.
  - reflexivity.
  - exists self, w'. split; [exact Hrun|]. split; [exact Hview|].
    intros m Hm.
    apply (Hdisplay m 1%nat (IRef 2%positive) (<["name" := PNone]> ∅));
      [exact Hm | reflexivity | by exists 2%positive | reflexivity].
Defined.

(** ** The label of the entry for all records *)

(** X8: construction labels the first entry of the filter [_("All")], while
    [fill_list] recognises it by the text "All".  Under a translation that
    changes the label, over well-formed records that all carry a group,
    construction returns with the translated label as the current entry and
    a view of only the records whose group is that label (none at all when
    no group has that name), and picking the first entry again gives the
    same view, not the whole list. *)
Theorem translated_All_hides_records tr list_of_set app_ data_list title mode w ds rs :
  record_set (heap w) data_list ds rs →
  Forall wf_record rs →
  Forall (λ r : gmap string PyVal, is_Some (r !! "group")) rs →
  rs ≠ [] →
  set_enumeration list_of_set →
  tr "All" ≠ "All" →
  ∃ self w',
    DialogSelectItems_init tr list_of_set app_ data_list title mode w = (Ok self, w')
    ∧ currentText (comboBox self) = tr "All"
    ∧ current_view self w' = Some (group_view (heap w) (tr "All") ds)
    ∧ view_after (on_currentIndexChanged tr 0 self w')
      = Some (group_view (heap w) (tr "All") ds)
    ∧ (Forall (λ r : gmap string PyVal, r !! "group" ≠ Some (PStr (tr "All"))) rs →
       current_view self w' = Some []).
Proof.
  intros Hdata Hwf Hgroup Hne Hset HAll.
  assert (group_values rs ≠ []) as Hgs.
  { apply group_values_Exists. destruct Hgroup; [done | by apply Exists_cons_hd]. }
  destruct (init_run_gen tr list_of_set app_ data_list title mode w ds rs)
    as (self & dr & w' & Hrun & Hself & _ & Hdr & _ & Hcb & Hgroups & Hview & _ & Hsub & _);
    [done | by apply wf_records_named | by intros _; apply enumeration_strs
    | by right; right |].
  rewrite (bool_decide_eq_false_2 _ Hgs) in Hcb.
  rewrite (bool_decide_eq_false_2 _ Hgs), (bool_decide_eq_false_2 _ HAll) in Hview.
  unfold group_entries in Hgroups. rewrite (bool_decide_eq_false_2 _ Hgs) in Hgroups.
  simpl in Hview.
  assert (current_view self w' = Some (group_view (heap w) (tr "All") ds)) as Hcur.
  { unfold current_view. by rewrite Hdr, Hview. }
  assert (Forall (λ d, is_Some (item_field (heap w) d "group")) ds) as Hds.
  { destruct Hdata as [_ Hrs]. by eapply records_have_group. }
  exists self, w'. split_and!; [done | by rewrite Hcb | done | |].
  - unfold on_currentIndexChanged.
    destruct (fill_list_run tr (user_pick_group 0 self) w' ds
                (IVal (PStr (tr "All")) :: list_of_set (group_values rs)))
      as (dr' & w'' & Hrun' & Hdr' & _).
    { simpl. rewrite Hself. destruct Hdata as [Hl _]. by eapply lookup_weaken. }
    { done. }
    { right; right. by eapply have_group_weaken. }
    rewrite Hrun'. simpl. erewrite current_view_set_view by done.
    f_equal. unfold filtered_view, currentText. simpl. rewrite Hcb. simpl.
    rewrite (bool_decide_eq_false_2 _ HAll). simpl.
    by apply group_view_weaken.
  - intros Hnone. rewrite Hcur. f_equal.
    destruct Hdata as [_ Hrs]. by eapply group_view_none.
Qed.

Lemma translated_All_hides_records_witness :
  ∃ self w',
    DialogSelectItems_init (λ s, if String.eqb s "All" then "Tous" else s) remove_dups
      example_app 4%positive "Select" "multiple" abc_world = (Ok self, w')
    ∧ currentText (comboBox self) = "Tous"
    ∧ current_view self w' = Some [].
Proof.
  destruct (translated_All_hides_records
              (λ s, if String.eqb s "All" then "Tous" else s) remove_dups
              example_app 4%positive "Select" "multiple" abc_world
              [IRef 1%positive; IRef 2%positive; IRef 3%positive]
              [<["name" := PStr "A"]> (<["group" := PStr "x"]> ∅);
               <["name" := PStr "B"]> (<["group" := PStr "y"]> ∅);
               <["name" := PStr "C"]> (<["group" := PStr "x"]> ∅)])
    as (self & w' & Hrun & Hcb & _ & _ & Hnone).
  - split; [reflexivity|].
    repeat constructor; [by exists 1%positive | by exists 2%positive | by exists 3%positive].
  - repeat constructor; try (by eexists); intros v [= <-]; by eexists.
  - repeat constructor; by eexists.
  - done.
  - apply remove_dups_enumeration.
  - by vm_compute.
  - exists self, w'. split; [exact Hrun|]. split; [exact Hcb|].
    apply Hnone. repeat constructor; by vm_compute.
Defined.

(** ** The states of a dialog *)












